(** * jupyter-js-services: the Contents client and its utilities

    A shallow embedding of [src/utils.ts] (URL helpers, the XMLHttpRequest
    wrapper, [PromiseDelegate]) and of the [Contents] class that drives
    them, followed by the properties of the prose specification.

    Conventions.
    - JavaScript strings are [string]s; a non-ASCII character is its UTF-8
      byte sequence, which is what [encodeURIComponent] percent-encodes.
    - [xhr.status] is an unsigned short, modelled in [N].
    - A promise is modelled by its eventual outcome ([promise]); the chain
      [p.then(f)] and [p.then(f, g)] is [then_] and [then2].
    - Code that throws returns a [completion]. *)

From Stdlib Require Import List String Ascii Bool Arith NArith ZArith Lia.
From Stdlib Require Import Numbers.DecimalString.
Import ListNotations.

#[local] Set Warnings "-register-all".

Local Open Scope list_scope.
Local Open Scope string_scope.

(** ** Strings the way the source uses them *)

Module JsString.

Definition slash : ascii := "/"%char.

Definition is_empty (s : string) : bool :=
  match s with
  | EmptyString => true
  | String _ _ => false
  end.

(** [s.charAt(n)]: the one-character string at index [n], the empty
    string out of range. *)
Definition charAt (s : string) (n : nat) : string :=
  match String.get n s with
  | Some c => String c EmptyString
  | None => EmptyString
  end.

(** Skip a maximal run of ['/'] at the head of [s]. *)
Fixpoint skip_slashes (s : string) : string :=
  match s with
  | EmptyString => EmptyString
  | String c s' => if Ascii.eqb c slash then skip_slashes s' else s
  end.

(** [s.replace(/\/\/+/, '/')]: the leftmost maximal run of two or more
    slashes becomes one slash (the pattern has no [g] flag, so only the
    first run is rewritten). *)
Fixpoint replace_slash_run (s : string) : string :=
  match s with
  | EmptyString => EmptyString
  | String c s' =>
      if Ascii.eqb c slash then
        match s' with
        | String c' s'' =>
            if Ascii.eqb c' slash
            then String slash (skip_slashes s'')
            else String c (replace_slash_run s')
        | EmptyString => s
        end
      else String c (replace_slash_run s')
  end.

(** [s.split('/')]. *)
Fixpoint split_slash (s : string) : list string :=
  match s with
  | EmptyString => [EmptyString]
  | String c s' =>
      if Ascii.eqb c slash then EmptyString :: split_slash s'
      else match split_slash s' with
           | piece :: rest => String c piece :: rest
           | [] => [String c EmptyString]
           end
  end.

(** [xs.join(sep)]. *)
Definition join (sep : string) (xs : list string) : string :=
  String.concat sep xs.

(** Number-to-string conversion of a non-negative integer, as in
    ['Invalid Status: ' + status]. *)
Definition of_N (n : N) : string :=
  NilZero.string_of_uint (N.to_uint n).

(** How often [c] occurs in [s]. *)
Fixpoint count_char (c : ascii) (s : string) : nat :=
  match s with
  | EmptyString => 0
  | String d s' => (if Ascii.eqb d c then 1 else 0) + count_char c s'
  end.

(** Every character of [s] satisfies [P]. *)
Fixpoint string_forall (P : ascii -> bool) (s : string) : bool :=
  match s with
  | EmptyString => true
  | String c s' => P c && string_forall P s'
  end.

(** The test [urlPathJoin] makes on its accumulator:
    [s.charAt(s.length - 1) == '/']. *)
Definition ends_with_slash (s : string) : bool :=
  charAt s (String.length s - 1) =? "/".

(** How many characters of [s] satisfy [P]. *)
Fixpoint count_if (P : ascii -> bool) (s : string) : nat :=
  match s with
  | EmptyString => 0
  | String c s' => (if P c then 1 else 0) + count_if P s'
  end.

Definition slash_free (s : string) : bool :=
  string_forall (fun c => negb (Ascii.eqb c slash)) s.

Definition nonempty (s : string) : bool := negb (is_empty s).

End JsString.

(** ** The platform's [encodeURIComponent] *)

Module Uri.

Definition in_range (lo hi c : ascii) : bool :=
  (nat_of_ascii lo <=? nat_of_ascii c)%nat
  && (nat_of_ascii c <=? nat_of_ascii hi)%nat.

(** Characters [encodeURIComponent] leaves alone:
    [A-Z a-z 0-9 - _ . ! ~ * ' ( )]. *)
Definition unreserved (c : ascii) : bool :=
  in_range "A" "Z" c || in_range "a" "z" c || in_range "0" "9" c
  || existsb (Ascii.eqb c)
       ["-"; "_"; "."; "!"; "~"; "*"; "'"; "("; ")"]%char.

Definition hex_digit (n : nat) : ascii :=
  nth n ["0"; "1"; "2"; "3"; "4"; "5"; "6"; "7"; "8"; "9";
         "A"; "B"; "C"; "D"; "E"; "F"]%char "0"%char.

Definition percent (c : ascii) : string :=
  let n := nat_of_ascii c in
  String "%" (String (hex_digit (n / 16)) (String (hex_digit (n mod 16)) "")).

Fixpoint encodeURIComponent (s : string) : string :=
  match s with
  | EmptyString => EmptyString
  | String c s' =>
      (if unreserved c then String c EmptyString else percent c)
      ++ encodeURIComponent s'
  end.

(** The characters an encoded component is made of. *)
Definition component_char (c : ascii) : bool :=
  unreserved c || Ascii.eqb c "%".

(** The characters an encoded path is made of. *)
Definition path_char (c : ascii) : bool :=
  component_char c || Ascii.eqb c "/".

(** All 256 one-byte characters. *)
Definition all_ascii : list ascii := map ascii_of_nat (seq 0 256).

End Uri.

(** ** [utils.ts]: URL helpers *)

Module Utils.

Import JsString Uri.

(** The body of the [for] loop of [urlPathJoin], from index [i] on, with
    [url] the accumulator.  The source rewrites the local [path] for
    [i > 0] and then appends [paths[i]]. *)
Fixpoint urlPathJoin_loop (i : nat) (paths : list string) (url : string)
  : string :=
  match paths with
  | [] => url
  | paths_i :: rest =>
      let path := paths_i in
      if is_empty path then urlPathJoin_loop (S i) rest url
      else
        let path := if (0 <? i)%nat then replace_slash_run path else path in
        if (0 <? String.length url)%nat
           && negb (charAt url (String.length url - 1) =? "/")
        then urlPathJoin_loop (S i) rest (url ++ "/" ++ paths_i)
        else urlPathJoin_loop (S i) rest (url ++ paths_i)
  end.

Definition urlPathJoin (paths : list string) : string :=
  urlPathJoin_loop 0 paths "".

Definition encodeURIComponents (uri : string) : string :=
  join "/" (map encodeURIComponent (split_slash uri)).

Definition urlJoinEncode (args : list string) : string :=
  encodeURIComponents (urlPathJoin args).

(** [jsonToQueryString]; the object is its own-key list in iteration
    (insertion) order. *)
Definition jsonToQueryString (json : list (string * string)) : string :=
  "?" ++ join "&"
           (map (fun kv => encodeURIComponent (fst kv) ++ "="
                           ++ encodeURIComponent (snd kv)) json).

(** The separator the loop puts after the accumulator [url]. *)
Definition separator (url : string) : string :=
  if (0 <? String.length url)%nat && negb (ends_with_slash url)
  then "/" else "".

(** [uuid]: 32 characters picked from [hexDigits]; [draw i] is the value
    of [Math.floor(Math.random() * nChars)] in round [i] of the loop. *)
Definition hexDigits : string := "0123456789abcdef".

Definition uuid (draw : nat -> nat) : string :=
  let s := map (fun i => charAt hexDigits (draw i)) (seq 0 32) in
  join "" s.

Definition is_hexDigit (c : ascii) : bool :=
  negb (JsString.count_char c hexDigits =? 0)%nat.

End Utils.

(** ** JavaScript values, exceptions and promise outcomes *)

(** The values a response body or an option can hold (TypeScript's [any]).
    Numbers are opaque to the client and kept as integers. *)
Inductive any : Type :=
| Undefined
| Null
| Bool (b : bool)
| Num (n : Z)
| Str (s : string)
| Arr (items : list any)
| Obj (fields : list (string * any)).

(** [Array.isArray]. *)
Definition isArray (v : any) : bool :=
  match v with
  | Arr _ => true
  | _ => false
  end.

(** A computation either returns or throws an [Error] object, which is
    identified by its message. *)
Inductive completion (A : Type) : Type :=
| Return (a : A)
| Throw (message : string).
Arguments Return {A} a.
Arguments Throw {A} message.

Definition bind {A B} (c : completion A) (k : A -> completion B)
  : completion B :=
  match c with
  | Return a => k a
  | Throw m => Throw m
  end.

Notation "x <- c ;; k" := (bind c (fun x => k))
  (at level 61, c at next level, right associativity).
Notation "c ;;; k" := (bind c (fun _ => k))
  (at level 61, right associativity).

(** [for (i = 0; i < xs.length; i++) f(xs[i])]. *)
Fixpoint forEach {A} (f : A -> completion unit) (xs : list A)
  : completion unit :=
  match xs with
  | [] => Return tt
  | x :: rest => f x ;;; forEach f rest
  end.

(** ** [utils.ts]: the XMLHttpRequest wrapper *)

Module XMLHttpRequest.
Record t : Type := { status : N; statusText : string; response : string }.
End XMLHttpRequest.

Module ErrorEvent.
Record t : Type := { message : string }.
End ErrorEvent.

Module IAjaxSettings.
Record t : Type := {
  method : string;
  dataType : string;
  contentType : option string;
  data : option string
}.
End IAjaxSettings.

Module IAjaxSuccess.
Record t : Type := {
  data : any;
  statusText : string;
  xhr : XMLHttpRequest.t
}.
End IAjaxSuccess.

Module IAjaxError.
Record t : Type := {
  xhr : XMLHttpRequest.t;
  statusText : string;
  error : ErrorEvent.t
}.
End IAjaxError.

(** The eventual outcome of a promise whose rejections carry an [E]. *)
Inductive promise (E A : Type) : Type :=
| Pending
| Fulfilled (a : A)
| Rejected (e : E).
Arguments Pending {E A}.
Arguments Fulfilled {E A} a.
Arguments Rejected {E A} e.

(** What the caller of the client is given on rejection: an [Error] thrown
    by a handler, or the transport's failure outcome untouched. *)
Inductive rejection : Type :=
| Error (message : string)
| AjaxError (e : IAjaxError.t).

Definition settle {B} (c : completion B) : promise rejection B :=
  match c with
  | Return b => Fulfilled b
  | Throw m => Rejected (Error m)
  end.

(** [p.then(onFulfilled)] on the transport's promise: a rejection passes
    through untouched. *)
Definition then_ {B} (p : promise IAjaxError.t IAjaxSuccess.t)
    (onFulfilled : IAjaxSuccess.t -> completion B) : promise rejection B :=
  match p with
  | Pending => Pending
  | Fulfilled a => settle (onFulfilled a)
  | Rejected e => Rejected (AjaxError e)
  end.

(** [p.then(onFulfilled, onRejected)]. *)
Definition then2 {B} (p : promise IAjaxError.t IAjaxSuccess.t)
    (onFulfilled : IAjaxSuccess.t -> completion B)
    (onRejected : IAjaxError.t -> completion B) : promise rejection B :=
  match p with
  | Pending => Pending
  | Fulfilled a => settle (onFulfilled a)
  | Rejected e => settle (onRejected e)
  end.

Module Ajax.

(** What [req.open], [req.setRequestHeader] and [req.send] put on the
    wire. *)
Record request : Type := {
  req_method : string;
  req_url : string;
  req_headers : list (string * string);
  req_body : option string
}.

(** The single event the request object fires, if any. *)
Inductive xhr_event : Type :=
| Load (req : XMLHttpRequest.t)
| Failure (req : XMLHttpRequest.t) (err : ErrorEvent.t)
| NoEvent.

Section Transport.

(** The remote side, and the platform's [JSON.parse]. *)
Variable network : request -> xhr_event.
Variable JSON_parse : string -> completion any.

(** The request built by the executor of [ajaxRequest]: the header
    and the body are sent only for a truthy (non-empty) setting. *)
Definition send (url : string) (settings : IAjaxSettings.t) : request :=
  {| req_method := IAjaxSettings.method settings;
     req_url := url;
     req_headers :=
       match IAjaxSettings.contentType settings with
       | Some ct =>
           if JsString.is_empty ct then [] else [("Content-Type", ct)]
       | None => []
       end;
     req_body :=
       match IAjaxSettings.data settings with
       | Some body => if JsString.is_empty body then None else Some body
       | None => None
       end |}.

(** [req.onload]. *)
Definition onload (settings : IAjaxSettings.t) (req : XMLHttpRequest.t)
  : completion IAjaxSuccess.t :=
  response <-
    (if (IAjaxSettings.dataType settings =? "json")
        && negb (JsString.is_empty (XMLHttpRequest.response req))
     then JSON_parse (XMLHttpRequest.response req)
     else Return (Str (XMLHttpRequest.response req))) ;;
  Return {| IAjaxSuccess.data := response;
            IAjaxSuccess.statusText := XMLHttpRequest.statusText req;
            IAjaxSuccess.xhr := req |}.

(** [req.onerror]. *)
Definition onerror (req : XMLHttpRequest.t) (err : ErrorEvent.t)
  : IAjaxError.t :=
  {| IAjaxError.xhr := req;
     IAjaxError.statusText := XMLHttpRequest.statusText req;
     IAjaxError.error := err |}.

(** [ajaxRequest]: an exception escaping [onload] is raised in the
    event handler, after the executor returned, and leaves the promise
    pending. *)
Definition ajaxRequest (url : string) (settings : IAjaxSettings.t)
  : promise IAjaxError.t IAjaxSuccess.t :=
  match network (send url settings) with
  | Load req =>
      match onload settings req with
      | Return success => Fulfilled success
      | Throw _ => Pending
      end
  | Failure req err => Rejected (onerror req err)
  | NoEvent => Pending
  end.

End Transport.

End Ajax.

(** ** The Contents client *)

Module IContentsOpts.
Record t : Type := {
  type : option string;
  format : option string;
  content : option any;
  ext : option string;
  name : option string
}.

(** The object literal [{}]. *)
Definition empty : t :=
  {| type := None; format := None; content := None;
     ext := None; name := None |}.
End IContentsOpts.

Module Contents.

Import JsString Utils.

Definition SERVICE_CONTENTS_URL : string := "api/contents".

Record t : Type := { _apiUrl : string }.

Definition constructor (baseUrl : string) : t :=
  {| _apiUrl := urlPathJoin [baseUrl; SERVICE_CONTENTS_URL] |}.

Definition _getUrl (this : t) (args : list string) : string :=
  urlPathJoin [_apiUrl this; urlJoinEncode args].

(** A property that may be absent reads as [undefined]. *)
Definition prop (field : option string) : any :=
  match field with
  | Some s => Str s
  | None => Undefined
  end.

(** The [params] object of [get], as its key list in insertion order. *)
Definition get_params (options : IContentsOpts.t) : list (string * string) :=
  let params := [] in
  let params :=
    match IContentsOpts.type options with
    | Some ty => if is_empty ty then params else (params ++ [("type", ty)])%list
    | None => params
    end in
  let params :=
    match IContentsOpts.format options with
    | Some fmt =>
        if is_empty fmt then params else (params ++ [("format", fmt)])%list
    | None => params
    end in
  let params :=
    match IContentsOpts.content options with
    | Some (Bool false) => (params ++ [("content", "0")])%list
    | _ => params
    end in
  params.

(** The query fields as the specification words them: [type] when set,
    [format] when set, [content=0] when content is explicitly false. *)
Definition spec_get_params (options : IContentsOpts.t)
  : list (string * string) :=
  (match IContentsOpts.type options with
   | Some ty => [("type", ty)]
   | None => []
   end
   ++ match IContentsOpts.format options with
      | Some fmt => [("format", fmt)]
      | None => []
      end
   ++ match IContentsOpts.content options with
      | Some (Bool false) => [("content", "0")]
      | _ => []
      end)%list.

(** "The URL ends in a bare ['?']": its last character is ['?']. *)
Definition ends_in_bare_query (url : string) : bool :=
  charAt url (String.length url - 1) =? "?".

(** An optional string that a JavaScript condition takes for false. *)
Definition falsy (field : option string) : Prop :=
  field = None \/ field = Some "".

Definition invalid_status {A} (status : N) : completion A :=
  Throw ("Invalid Status: " ++ of_N status).

Section Client.

Variable network : Ajax.request -> Ajax.xhr_event.
Variable JSON_parse : string -> completion any.
Variable JSON_stringify : any -> string.

(** The validators of [./validate]: each returns normally on a payload
    of the expected shape and throws otherwise. *)
Variable validateContentsModel : any -> completion unit.
Variable validateCheckpointModel : any -> completion unit.

Local Abbreviation ajaxRequest := (Ajax.ajaxRequest network JSON_parse).

Definition status_of (success : IAjaxSuccess.t) : N :=
  XMLHttpRequest.status (IAjaxSuccess.xhr success).

(** *** get *)

Definition get_settings : IAjaxSettings.t :=
  {| IAjaxSettings.method := "GET"; IAjaxSettings.dataType := "json";
     IAjaxSettings.contentType := None; IAjaxSettings.data := None |}.

Definition get_url (this : t) (path : string) (options : IContentsOpts.t)
  : string :=
  let url := _getUrl this [path] in
  let params := get_params options in
  url ++ jsonToQueryString params.

Definition get_then (success : IAjaxSuccess.t) : completion any :=
  if negb (status_of success =? 200)%N
  then invalid_status (status_of success)
  else validateContentsModel (IAjaxSuccess.data success) ;;;
       Return (IAjaxSuccess.data success).

Definition get (this : t) (path : string) (options : IContentsOpts.t)
  : promise rejection any :=
  then_ (ajaxRequest (get_url this path options) get_settings) get_then.

(** *** newUntitled *)

Definition newUntitled_settings (options : option IContentsOpts.t)
  : IAjaxSettings.t :=
  match options with
  | Some options =>
      let data :=
        JSON_stringify
          (Obj [("ext", prop (IContentsOpts.ext options));
                ("type", prop (IContentsOpts.type options))]) in
      {| IAjaxSettings.method := "POST"; IAjaxSettings.dataType := "json";
         IAjaxSettings.contentType := Some "application/json";
         IAjaxSettings.data := Some data |}
  | None =>
      {| IAjaxSettings.method := "POST"; IAjaxSettings.dataType := "json";
         IAjaxSettings.contentType := None; IAjaxSettings.data := None |}
  end.

Definition newUntitled_then (success : IAjaxSuccess.t) : completion any :=
  if negb (status_of success =? 201)%N
  then invalid_status (status_of success)
  else validateContentsModel (IAjaxSuccess.data success) ;;;
       Return (IAjaxSuccess.data success).

Definition newUntitled (this : t) (path : string)
    (options : option IContentsOpts.t) : promise rejection any :=
  then_ (ajaxRequest (_getUrl this [path]) (newUntitled_settings options))
        newUntitled_then.

(** *** delete *)

Definition delete_settings : IAjaxSettings.t :=
  {| IAjaxSettings.method := "DELETE"; IAjaxSettings.dataType := "json";
     IAjaxSettings.contentType := None; IAjaxSettings.data := None |}.

Definition delete_then (success : IAjaxSuccess.t) : completion any :=
  if negb (status_of success =? 204)%N
  then invalid_status (status_of success)
  else Return Undefined.

(** The rejection handler of [delete]. *)
Definition delete_catch (error : IAjaxError.t) : completion any :=
  if (XMLHttpRequest.status (IAjaxError.xhr error) =? 400)%N
  then Throw "Directory not found"
  else Throw (XMLHttpRequest.statusText (IAjaxError.xhr error)).

Definition delete (this : t) (path : string) : promise rejection any :=
  then2 (ajaxRequest (_getUrl this [path]) delete_settings)
        delete_then delete_catch.

(** *** rename *)

Definition rename_settings (newPath : string) : IAjaxSettings.t :=
  let data := Obj [("path", Str newPath)] in
  {| IAjaxSettings.method := "PATCH";
     IAjaxSettings.data := Some (JSON_stringify data);
     IAjaxSettings.dataType := "json";
     IAjaxSettings.contentType := Some "application/json" |}.

Definition rename_then (success : IAjaxSuccess.t) : completion any :=
  if negb (status_of success =? 200)%N
  then invalid_status (status_of success)
  else validateContentsModel (IAjaxSuccess.data success) ;;;
       Return (IAjaxSuccess.data success).

Definition rename (this : t) (path newPath : string) : promise rejection any :=
  then_ (ajaxRequest (_getUrl this [path]) (rename_settings newPath))
        rename_then.

(** *** save *)

Definition save_settings (model : any) : IAjaxSettings.t :=
  {| IAjaxSettings.method := "PUT"; IAjaxSettings.dataType := "json";
     IAjaxSettings.data := Some (JSON_stringify model);
     IAjaxSettings.contentType := Some "application/json" |}.

Definition save_then (success : IAjaxSuccess.t) : completion any :=
  if negb (status_of success =? 200)%N && negb (status_of success =? 201)%N
  then invalid_status (status_of success)
  else validateContentsModel (IAjaxSuccess.data success) ;;;
       Return (IAjaxSuccess.data success).

Definition save (this : t) (path : string) (model : any) : promise rejection any :=
  then_ (ajaxRequest (_getUrl this [path]) (save_settings model)) save_then.

(** *** copy *)

Definition copy_settings (fromFile : string) : IAjaxSettings.t :=
  {| IAjaxSettings.method := "POST";
     IAjaxSettings.data :=
       Some (JSON_stringify (Obj [("copy_from", Str fromFile)]));
     IAjaxSettings.contentType := Some "application/json";
     IAjaxSettings.dataType := "json" |}.

Definition copy_then (success : IAjaxSuccess.t) : completion any :=
  if negb (status_of success =? 201)%N
  then invalid_status (status_of success)
  else validateContentsModel (IAjaxSuccess.data success) ;;;
       Return (IAjaxSuccess.data success).

Definition copy (this : t) (fromFile toDir : string) : promise rejection any :=
  then_ (ajaxRequest (_getUrl this [toDir]) (copy_settings fromFile))
        copy_then.

(** *** createCheckpoint *)

Definition createCheckpoint_settings : IAjaxSettings.t :=
  {| IAjaxSettings.method := "POST"; IAjaxSettings.dataType := "json";
     IAjaxSettings.contentType := None; IAjaxSettings.data := None |}.

Definition createCheckpoint_then (success : IAjaxSuccess.t)
  : completion any :=
  if negb (status_of success =? 201)%N
  then invalid_status (status_of success)
  else validateCheckpointModel (IAjaxSuccess.data success) ;;;
       Return (IAjaxSuccess.data success).

Definition createCheckpoint (this : t) (path : string) : promise rejection any :=
  then_ (ajaxRequest (_getUrl this [path; "checkpoints"])
                     createCheckpoint_settings)
        createCheckpoint_then.

(** *** listCheckpoints *)

Definition listCheckpoints_settings : IAjaxSettings.t :=
  {| IAjaxSettings.method := "GET"; IAjaxSettings.dataType := "json";
     IAjaxSettings.contentType := None; IAjaxSettings.data := None |}.

Definition listCheckpoints_then (success : IAjaxSuccess.t)
  : completion any :=
  if negb (status_of success =? 200)%N
  then invalid_status (status_of success)
  else
    match IAjaxSuccess.data success with
    | Arr items =>
        forEach validateCheckpointModel items ;;;
        Return (IAjaxSuccess.data success)
    | _ => Throw "Invalid Checkpoint list"
    end.

Definition listCheckpoints (this : t) (path : string) : promise rejection any :=
  then_ (ajaxRequest (_getUrl this [path; "checkpoints"])
                     listCheckpoints_settings)
        listCheckpoints_then.

(** *** restoreCheckpoint *)

Definition restoreCheckpoint_settings : IAjaxSettings.t :=
  {| IAjaxSettings.method := "POST"; IAjaxSettings.dataType := "json";
     IAjaxSettings.contentType := None; IAjaxSettings.data := None |}.

Definition restoreCheckpoint_then (success : IAjaxSuccess.t)
  : completion any :=
  if negb (status_of success =? 204)%N
  then invalid_status (status_of success)
  else Return Undefined.

Definition restoreCheckpoint (this : t) (path checkpointID : string)
  : promise rejection any :=
  then_ (ajaxRequest (_getUrl this [path; "checkpoints"; checkpointID])
                     restoreCheckpoint_settings)
        restoreCheckpoint_then.

(** *** deleteCheckpoint *)

Definition deleteCheckpoint_settings : IAjaxSettings.t :=
  {| IAjaxSettings.method := "DELETE"; IAjaxSettings.dataType := "json";
     IAjaxSettings.contentType := None; IAjaxSettings.data := None |}.

Definition deleteCheckpoint_then (success : IAjaxSuccess.t)
  : completion any :=
  if negb (status_of success =? 204)%N
  then invalid_status (status_of success)
  else Return Undefined.

Definition deleteCheckpoint (this : t) (path checkpointID : string)
  : promise rejection any :=
  then_ (ajaxRequest (_getUrl this [path; "checkpoints"; checkpointID])
                     deleteCheckpoint_settings)
        deleteCheckpoint_then.

(** *** listContents *)

Definition listContents_options : IContentsOpts.t :=
  {| IContentsOpts.type := Some "directory";
     IContentsOpts.format := None; IContentsOpts.content := None;
     IContentsOpts.ext := None; IContentsOpts.name := None |}.

Definition listContents (this : t) (path : string) : promise rejection any :=
  get this path listContents_options.

(** *** The interface [IContents], one constructor per method call *)

Inductive call : Type :=
| Get (path : string) (options : IContentsOpts.t)
| NewUntitled (path : string) (options : option IContentsOpts.t)
| Delete (path : string)
| Rename (path newPath : string)
| Save (path : string) (model : any)
| ListContents (path : string)
| Copy (fromFile toDir : string)
| CreateCheckpoint (path : string)
| RestoreCheckpoint (path checkpointID : string)
| DeleteCheckpoint (path checkpointID : string)
| ListCheckpoints (path : string).

Definition invoke (this : t) (k : call) : promise rejection any :=
  match k with
  | Get path options => get this path options
  | NewUntitled path options => newUntitled this path options
  | Delete path => delete this path
  | Rename path newPath => rename this path newPath
  | Save path model => save this path model
  | ListContents path => listContents this path
  | Copy fromFile toDir => copy this fromFile toDir
  | CreateCheckpoint path => createCheckpoint this path
  | RestoreCheckpoint path id => restoreCheckpoint this path id
  | DeleteCheckpoint path id => deleteCheckpoint this path id
  | ListCheckpoints path => listCheckpoints this path
  end.

(** The transport outcome a call is chained on: [ajaxRequest] at the
    URL and settings the method builds. *)
Definition transport (this : t) (k : call)
  : promise IAjaxError.t IAjaxSuccess.t :=
  match k with
  | Get path options =>
      ajaxRequest (get_url this path options) get_settings
  | NewUntitled path options =>
      ajaxRequest (_getUrl this [path]) (newUntitled_settings options)
  | Delete path => ajaxRequest (_getUrl this [path]) delete_settings
  | Rename path newPath =>
      ajaxRequest (_getUrl this [path]) (rename_settings newPath)
  | Save path model =>
      ajaxRequest (_getUrl this [path]) (save_settings model)
  | ListContents path =>
      ajaxRequest (get_url this path listContents_options) get_settings
  | Copy fromFile toDir =>
      ajaxRequest (_getUrl this [toDir]) (copy_settings fromFile)
  | CreateCheckpoint path =>
      ajaxRequest (_getUrl this [path; "checkpoints"])
                  createCheckpoint_settings
  | RestoreCheckpoint path id =>
      ajaxRequest (_getUrl this [path; "checkpoints"; id])
                  restoreCheckpoint_settings
  | DeleteCheckpoint path id =>
      ajaxRequest (_getUrl this [path; "checkpoints"; id])
                  deleteCheckpoint_settings
  | ListCheckpoints path =>
      ajaxRequest (_getUrl this [path; "checkpoints"])
                  listCheckpoints_settings
  end.

(** *** The specification's operation table (section 4.1) *)

(** What the table says an operation returns. *)
Inductive shape : Type :=
| ContentItem
| CheckpointRecord
| CheckpointSequence
| NoValue.

Definition spec_returns (k : call) : shape :=
  match k with
  | Get _ _ | NewUntitled _ _ | Rename _ _ | Save _ _
  | ListContents _ | Copy _ _ => ContentItem
  | CreateCheckpoint _ => CheckpointRecord
  | ListCheckpoints _ => CheckpointSequence
  | Delete _ | RestoreCheckpoint _ _ | DeleteCheckpoint _ _ => NoValue
  end.

(** The table's "Success status" column. *)
Definition spec_accepted (k : call) : list N :=
  match k with
  | Get _ _ | ListContents _ | Rename _ _ | ListCheckpoints _ => [200%N]
  | NewUntitled _ _ | Copy _ _ | CreateCheckpoint _ => [201%N]
  | Delete _ | RestoreCheckpoint _ _ | DeleteCheckpoint _ _ => [204%N]
  | Save _ _ => [200%N; 201%N]
  end.

(** "The payload passes shape validation", as judged by the validator
    oracles. *)
Definition spec_valid (sh : shape) (payload : any) : Prop :=
  match sh with
  | ContentItem => validateContentsModel payload = Return tt
  | CheckpointRecord => validateCheckpointModel payload = Return tt
  | CheckpointSequence =>
      exists items,
        payload = Arr items
        /\ Forall (fun x => validateCheckpointModel x = Return tt) items
  | NoValue => True
  end.

(** *** The request each call puts on the wire *)

Definition call_url (this : t) (k : call) : string :=
  match k with
  | Get path options => get_url this path options
  | ListContents path => get_url this path listContents_options
  | NewUntitled path _ | Delete path | Rename path _ | Save path _ =>
      _getUrl this [path]
  | Copy _ toDir => _getUrl this [toDir]
  | CreateCheckpoint path | ListCheckpoints path =>
      _getUrl this [path; "checkpoints"]
  | RestoreCheckpoint path id | DeleteCheckpoint path id =>
      _getUrl this [path; "checkpoints"; id]
  end.

Definition call_settings (k : call) : IAjaxSettings.t :=
  match k with
  | Get _ _ | ListContents _ => get_settings
  | NewUntitled _ options => newUntitled_settings options
  | Delete _ => delete_settings
  | Rename _ newPath => rename_settings newPath
  | Save _ model => save_settings model
  | Copy fromFile _ => copy_settings fromFile
  | CreateCheckpoint _ => createCheckpoint_settings
  | ListCheckpoints _ => listCheckpoints_settings
  | RestoreCheckpoint _ _ => restoreCheckpoint_settings
  | DeleteCheckpoint _ _ => deleteCheckpoint_settings
  end.

Definition request_of (this : t) (k : call) : Ajax.request :=
  Ajax.send (call_url this k) (call_settings k).

End Client.

End Contents.

(** ** The platform's promise, and [PromiseDelegate]

    The promise follows ECMAScript's abstract operations: the resolving
    functions created for one promise share an [alreadyResolved] flag;
    settling a pending promise queues one reaction job per registered
    reaction; [then] on a settled promise queues its job at once.  A
    thenable handed to [resolve] is represented by the outcome it delivers
    when it calls back. *)

Module JsPromise.

Section Promise.

Variables T R Observer : Type.

Inductive outcome : Type :=
| fulfilled (value : T)
| rejected (reason : R).

(** The argument of [resolve]: [T | Thenable<T>]. *)
Inductive resolution : Type :=
| Plain (value : T)
| Thenable (eventual : outcome).

Record t : Type := {
  state : option outcome;         (* [None] while pending *)
  alreadyResolved : bool;
  adopting : option outcome;      (* the thenable being followed *)
  reactions : list Observer;      (* registered while pending *)
  jobs : list (Observer * outcome) (* reaction jobs queued so far *)
}.

(** [new Promise(executor)], before the executor settles anything. *)
Definition create : t :=
  {| state := None; alreadyResolved := false; adopting := None;
     reactions := []; jobs := [] |}.

(** FulfillPromise / RejectPromise with TriggerPromiseReactions. *)
Definition settle_with (p : t) (o : outcome) : t :=
  match state p with
  | Some _ => p
  | None =>
      {| state := Some o; alreadyResolved := alreadyResolved p;
         adopting := None; reactions := [];
         jobs := (jobs p ++ map (fun obs => (obs, o)) (reactions p))%list |}
  end.

Definition lock (p : t) : t :=
  {| state := state p; alreadyResolved := true; adopting := adopting p;
     reactions := reactions p; jobs := jobs p |}.

(** The promise's resolve function. *)
Definition resolveFn (p : t) (x : resolution) : t :=
  if alreadyResolved p then p
  else
    match x with
    | Plain value => settle_with (lock p) (fulfilled value)
    | Thenable eventual =>
        {| state := state p; alreadyResolved := true;
           adopting := Some eventual;
           reactions := reactions p; jobs := jobs p |}
    end.

(** The promise's reject function. *)
Definition rejectFn (p : t) (reason : R) : t :=
  if alreadyResolved p then p
  else settle_with (lock p) (rejected reason).

(** The followed thenable calls back. *)
Definition thenable_calls_back (p : t) : t :=
  match adopting p with
  | Some eventual => settle_with p eventual
  | None => p
  end.

(** PerformPromiseThen for an observer. *)
Definition then_ (p : t) (obs : Observer) : t :=
  match state p with
  | None =>
      {| state := None; alreadyResolved := alreadyResolved p;
         adopting := adopting p;
         reactions := (reactions p ++ [obs])%list; jobs := jobs p |}
  | Some o =>
      {| state := state p; alreadyResolved := alreadyResolved p;
         adopting := adopting p; reactions := reactions p;
         jobs := (jobs p ++ [(obs, o)])%list |}
  end.

End Promise.

Arguments fulfilled {T R} value.
Arguments rejected {T R} reason.
Arguments Plain {T R} value.
Arguments Thenable {T R} eventual.
Arguments create {T R Observer}.
Arguments state {T R Observer} p : rename.
Arguments alreadyResolved {T R Observer} p : rename.
Arguments adopting {T R Observer} p : rename.
Arguments reactions {T R Observer} p : rename.
Arguments jobs {T R Observer} p : rename.
Arguments settle_with {T R Observer} p o.
Arguments resolveFn {T R Observer} p x.
Arguments rejectFn {T R Observer} p reason.
Arguments thenable_calls_back {T R Observer} p.
Arguments then_ {T R Observer} p obs.

End JsPromise.

Module PromiseDelegate.

Section Delegate.

Variables T R Observer : Type.

(** The delegate holds the promise; [_resolve] and [_reject] are the
    promise's own resolving functions, captured by the executor. *)
Record t : Type := { _promise : JsPromise.t T R Observer }.

Definition constructor : t := {| _promise := JsPromise.create |}.

Definition promise (this : t) : JsPromise.t T R Observer :=
  _promise this.

Definition resolve (this : t) (value : JsPromise.resolution T R) : t :=
  {| _promise := JsPromise.resolveFn (_promise this) value |}.

Definition reject (this : t) (reason : R) : t :=
  {| _promise := JsPromise.rejectFn (_promise this) reason |}.

(** What can happen to a delegate over its life. *)
Inductive action : Type :=
| CallResolve (value : JsPromise.resolution T R)
| CallReject (reason : R)
| Observe (obs : Observer)       (* [delegate.promise.then(obs)] *)
| ThenableCallsBack.

Definition step (this : t) (a : action) : t :=
  match a with
  | CallResolve value => resolve this value
  | CallReject reason => reject this reason
  | Observe obs => {| _promise := JsPromise.then_ (_promise this) obs |}
  | ThenableCallsBack =>
      {| _promise := JsPromise.thenable_calls_back (_promise this) |}
  end.

Definition run (this : t) (acts : list action) : t :=
  fold_left step acts this.

(** *** The specification's reading of a history *)

Definition is_invocation (a : action) : bool :=
  match a with
  | CallResolve _ | CallReject _ => true
  | _ => false
  end.

(** The observers of a history, in attachment order. *)
Fixpoint observers (acts : list action) : list Observer :=
  match acts with
  | [] => []
  | Observe obs :: rest => obs :: observers rest
  | _ :: rest => observers rest
  end.

(** The reaction job that hands outcome [o] to observer [obs]. *)
Definition notify (o : JsPromise.outcome T R) (obs : Observer)
  : Observer * JsPromise.outcome T R :=
  (obs, o).

Fixpoint delivered (eventual : JsPromise.outcome T R)
    (acts : list action) : option (JsPromise.outcome T R) :=
  match acts with
  | [] => None
  | ThenableCallsBack :: _ => Some eventual
  | _ :: rest => delivered eventual rest
  end.

(** The outcome the first invocation of [resolve] or [reject] decides;
    [None] when there is none yet. *)
Fixpoint first_outcome (acts : list action)
  : option (JsPromise.outcome T R) :=
  match acts with
  | [] => None
  | CallResolve (JsPromise.Plain value) :: _ =>
      Some (JsPromise.fulfilled value)
  | CallResolve (JsPromise.Thenable eventual) :: rest =>
      delivered eventual rest
  | CallReject reason :: _ => Some (JsPromise.rejected reason)
  | _ :: rest => first_outcome rest
  end.

End Delegate.

Arguments _promise {T R Observer} this : rename.
Arguments constructor {T R Observer}.
Arguments promise {T R Observer} this.
Arguments resolve {T R Observer} this value.
Arguments reject {T R Observer} this reason.
Arguments CallResolve {T R Observer} value.
Arguments CallReject {T R Observer} reason.
Arguments Observe {T R Observer} obs.
Arguments ThenableCallsBack {T R Observer}.
Arguments step {T R Observer} this a.
Arguments run {T R Observer} this acts.
Arguments is_invocation {T R Observer} a.
Arguments observers {T R Observer} acts.
Arguments notify {T R Observer} o obs.
Arguments delivered {T R Observer} eventual acts.
Arguments first_outcome {T R Observer} acts.

End PromiseDelegate.

(** ** Fixtures: a concrete platform, remote side and validators *)

Module Fixture.

Import JsString.

Definition dq : string := String (ascii_of_nat 34) EmptyString.

Definition defined (v : any) : bool :=
  match v with
  | Undefined => false
  | _ => true
  end.

(** [JSON.stringify] on values whose strings need no escaping. *)
Fixpoint stringify (v : any) : string :=
  match v with
  | Undefined | Null => "null"
  | Bool true => "true"
  | Bool false => "false"
  | Num n => NilEmpty.string_of_int (Z.to_int n)
  | Str s => dq ++ s ++ dq
  | Arr items => "[" ++ join "," (map stringify items) ++ "]"
  | Obj fields =>
      "{" ++ join ","
               (List.concat
                  (map (fun kv : string * any =>
                          let (k, x) := kv in
                          if defined x
                          then [dq ++ k ++ dq ++ ":" ++ stringify x]
                          else [])
                       fields))
      ++ "}"
  end.

Definition field (k v : string) : string * any := (k, Str v).

Definition notebook : any :=
  Obj [field "name" "nb.ipynb"; field "path" "nb.ipynb";
       field "type" "notebook"; ("writable", Bool true);
       field "created" "2015-08-01"; field "last_modified" "2015-08-02";
       field "mimetype" "application/json"; field "content" "";
       field "format" "json"].

(** A content item without its [path]. *)
Definition pathless : any :=
  Obj [field "name" "nb.ipynb"; field "type" "notebook"].

Definition checkpoint : any :=
  Obj [field "id" "cp1"; field "last_modified" "2015-08-02"].

Definition checkpoints : any := Arr [checkpoint; checkpoint].

(** [JSON.parse] on the bodies the fixtures serve. *)
Definition parse (raw : string) : completion any :=
  match find (fun v => stringify v =? raw)
             [notebook; pathless; checkpoint; checkpoints;
              Arr [checkpoint; pathless]] with
  | Some v => Return v
  | None => Throw "SyntaxError"
  end.

Fixpoint lookup (k : string) (fields : list (string * any)) : option any :=
  match fields with
  | [] => None
  | (k', v) :: rest => if k' =? k then Some v else lookup k rest
  end.

Definition has_fields (names : list string) (v : any) : bool :=
  match v with
  | Obj fields =>
      forallb (fun k => match lookup k fields with
                        | Some x => defined x
                        | None => false
                        end) names
  | _ => false
  end.

(** Modelled from the spec: [validateContentsModel] of [./validate],
    which is not part of the sources at hand; a content item carries
    [name], [path], [type], [created], [last_modified], [mimetype],
    [content] and [format]. *)
Definition validateContentsModel (model : any) : completion unit :=
  if has_fields ["name"; "path"; "type"; "created"; "last_modified";
                 "mimetype"; "content"; "format"] model
  then Return tt
  else Throw "Invalid Contents Model".

(** Modelled from the spec: [validateCheckpointModel] of [./validate];
    a checkpoint record carries [id] and [last_modified]. *)
Definition validateCheckpointModel (model : any) : completion unit :=
  if has_fields ["id"; "last_modified"] model
  then Return tt
  else Throw "Invalid Checkpoint Model".

(** A remote side that answers every request with a load event. *)
Definition replies (status : N) (statusText : string) (body : any)
  : Ajax.request -> Ajax.xhr_event :=
  fun _ =>
    Ajax.Load {| XMLHttpRequest.status := status;
                 XMLHttpRequest.statusText := statusText;
                 XMLHttpRequest.response := stringify body |}.

(** A remote side that answers with an empty body. *)
Definition replies_empty (status : N) (statusText : string)
  : Ajax.request -> Ajax.xhr_event :=
  fun _ =>
    Ajax.Load {| XMLHttpRequest.status := status;
                 XMLHttpRequest.statusText := statusText;
                 XMLHttpRequest.response := "" |}.

(** A request that fails at the transport. *)
Definition fails (status : N) (statusText : string)
  : Ajax.request -> Ajax.xhr_event :=
  fun _ =>
    Ajax.Failure {| XMLHttpRequest.status := status;
                    XMLHttpRequest.statusText := statusText;
                    XMLHttpRequest.response := "" |}
                 {| ErrorEvent.message := "error" |}.

(** The success outcome of the transport on [replies]. *)
Definition reply (status : N) (statusText : string) (body : any)
  : IAjaxSuccess.t :=
  {| IAjaxSuccess.data := body;
     IAjaxSuccess.statusText := statusText;
     IAjaxSuccess.xhr :=
       {| XMLHttpRequest.status := status;
          XMLHttpRequest.statusText := statusText;
          XMLHttpRequest.response := stringify body |} |}.

(** The failure outcome of the transport on [fails]. *)
Definition failure (status : N) (statusText : string) : IAjaxError.t :=
  {| IAjaxError.xhr :=
       {| XMLHttpRequest.status := status;
          XMLHttpRequest.statusText := statusText;
          XMLHttpRequest.response := "" |};
     IAjaxError.statusText := statusText;
     IAjaxError.error := {| ErrorEvent.message := "error" |} |}.

Definition client : Contents.t := Contents.constructor "".

Definition invoke (network : Ajax.request -> Ajax.xhr_event)
    (k : Contents.call) : promise rejection any :=
  Contents.invoke network parse stringify
                  validateContentsModel validateCheckpointModel client k.

End Fixture.

(** * Properties *)

(** ** Path joining *)

Section UrlPathJoin.

Import JsString Utils.

(** The loop index only feeds the rewritten local [path], which is never
    appended: the result does not depend on it. *)
Lemma urlPathJoin_loop_index (paths : list string) :
  forall i j url, urlPathJoin_loop i paths url = urlPathJoin_loop j paths url.
Proof.
  induction paths as [|p rest IH]; intros i j url; simpl.
  - reflexivity.
  - destruct (is_empty p); [apply IH|].
    destruct ((0 <? String.length url)%nat
              && negb (charAt url (String.length url - 1) =? "/"));
      apply IH.
Qed.

(** An empty segment is skipped. *)
Lemma urlPathJoin_loop_skips_empty i rest url :
  urlPathJoin_loop i ("" :: rest) url = urlPathJoin_loop (S i) rest url.
Proof. reflexivity. Qed.

(** The first non-empty segment is taken as it is. *)
Lemma urlPathJoin_loop_first i p rest :
  p <> "" ->
  urlPathJoin_loop i (p :: rest) "" = urlPathJoin_loop (S i) rest p.
Proof.
  intros Hp. destruct p as [|c p']; [congruence|]. reflexivity.
Qed.

(** A non-empty segment is appended after one separator, unless the
    accumulated prefix already ends in a slash. *)
Lemma urlPathJoin_loop_step i p rest url :
  p <> "" -> url <> "" ->
  urlPathJoin_loop i (p :: rest) url =
  urlPathJoin_loop (S i) rest
    (if charAt url (String.length url - 1) =? "/"
     then url ++ p else url ++ "/" ++ p).
Proof.
  intros Hp Hu.
  destruct p as [|c p']; [congruence|].
  destruct url as [|d url']; [congruence|].
  cbn [urlPathJoin_loop is_empty].
  replace (0 <? String.length (String d url'))%nat with true by reflexivity.
  cbn [andb].
  destruct (charAt (String d url') (String.length (String d url') - 1) =? "/");
    reflexivity.
Qed.

Lemma urlPathJoin_examples :
  urlPathJoin ["a/"; ""; "b"] = "a/b"
  /\ urlPathJoin [""; "x"] = "x"
  /\ urlPathJoin ["a"; "b"] = "a/b".
Proof. repeat split; reflexivity. Qed.

(** C6 (the code at the failing inputs): [urlPathJoin] computes the
    collapsed form of a later segment, here [/b] for [//b], and then
    appends the segment as it was given, so repeated slashes of the second
    segment reach the result: [urlPathJoin("a", "//b")] is [a///b] and
    [urlPathJoin("a", "b//c")] is [a/b//c]. *)
Theorem urlPathJoin_keeps_repeated_slashes :
  replace_slash_run "//b" = "/b"
  /\ urlPathJoin ["a"; "//b"] = "a///b"
  /\ replace_slash_run "b//c" = "b/c"
  /\ urlPathJoin ["a"; "b//c"] = "a/b//c".
Proof. repeat split; reflexivity. Qed.

End UrlPathJoin.

(** ** The query string of [get] *)

Section GetQuery.

Import JsString Utils Contents.

Lemma jsonToQueryString_empty : jsonToQueryString [] = "?".
Proof. reflexivity. Qed.

Lemma is_empty_true s : is_empty s = true <-> s = "".
Proof. destruct s; simpl; split; congruence. Qed.

Lemma is_empty_false s : is_empty s = false <-> s <> "".
Proof. destruct s; simpl; split; congruence. Qed.

(** The fields [get] passes on, one by one. *)
Lemma in_get_params k v options :
  In (k, v) (get_params options) <->
  (k = "type" /\ IContentsOpts.type options = Some v /\ v <> "")
  \/ (k = "format" /\ IContentsOpts.format options = Some v /\ v <> "")
  \/ (k = "content" /\ v = "0"
      /\ IContentsOpts.content options = Some (Bool false)).
Proof.
  destruct options as [ty fmt cnt ex nm]. unfold get_params. cbn [IContentsOpts.type
    IContentsOpts.format IContentsOpts.content].
  assert (Hty : forall l,
    In (k, v) (match ty with
               | Some t => if is_empty t then l else (l ++ [("type", t)])%list
               | None => l end)
    <-> In (k, v) l \/ (k = "type" /\ ty = Some v /\ v <> "")).
  { intros l. destruct ty as [t|].
    - destruct (is_empty t) eqn:E.
      + apply is_empty_true in E. subst t. split; [auto|].
        intros [H|(_ & H & Hv)]; [assumption|]. congruence.
      + apply is_empty_false in E. rewrite in_app_iff. simpl. split.
        * intros [H|[H|[]]]; [auto|]. inversion H; subst. auto.
        * intros [H|(Hk & H & _)]; [auto|]. inversion H; subst. auto.
    - split; [auto|]. intros [H|(_ & H & _)]; [assumption|discriminate]. }
  assert (Hfmt : forall l,
    In (k, v) (match fmt with
               | Some t => if is_empty t then l else (l ++ [("format", t)])%list
               | None => l end)
    <-> In (k, v) l \/ (k = "format" /\ fmt = Some v /\ v <> "")).
  { intros l. destruct fmt as [t|].
    - destruct (is_empty t) eqn:E.
      + apply is_empty_true in E. subst t. split; [auto|].
        intros [H|(_ & H & Hv)]; [assumption|]. congruence.
      + apply is_empty_false in E. rewrite in_app_iff. simpl. split.
        * intros [H|[H|[]]]; [auto|]. inversion H; subst. auto.
        * intros [H|(Hk & H & _)]; [auto|]. inversion H; subst. auto.
    - split; [auto|]. intros [H|(_ & H & _)]; [assumption|discriminate]. }
  assert (Hcnt : forall l,
    In (k, v) (match cnt with
               | Some (Bool false) => (l ++ [("content", "0")])%list
               | _ => l end)
    <-> In (k, v) l \/ (k = "content" /\ v = "0" /\ cnt = Some (Bool false))).
  { intros l.
    destruct cnt as [[ | |[|]| | | | ]|];
      try (split; [auto|]; intros [H|(_ & _ & H)]; [assumption|discriminate]).
    rewrite in_app_iff. simpl. split.
    - intros [H|[H|[]]]; [auto|]. inversion H; subst. auto.
    - intros [H|(Hk & Hv & _)]; [auto|]. subst. auto. }
  rewrite Hcnt, Hfmt, Hty. simpl. tauto.
Qed.

Lemma get_params_keys_distinct options : NoDup (map fst (get_params options)).
Proof.
  destruct options as [[[|c t]|] [[|d f]|] [[ | |[|]| | | | ]|] ex nm];
    vm_compute;
    repeat (constructor; [simpl; intuition discriminate|]); constructor.
Qed.

(** C7 (as stated, refuted): with [type] explicitly set to the empty
    string the specification's reading sends [?type=], whereas [get]
    sends a bare [?]. *)
Lemma get_query_type_set_empty_omitted :
  let options :=
    {| IContentsOpts.type := Some ""; IContentsOpts.format := None;
       IContentsOpts.content := None; IContentsOpts.ext := None;
       IContentsOpts.name := None |} in
  get_url Fixture.client "nb" options = "api/contents/nb?"
  /\ _getUrl Fixture.client ["nb"] ++ jsonToQueryString (spec_get_params options)
     = "api/contents/nb?type="
  /\ get_params options <> spec_get_params options.
Proof. repeat split; try reflexivity. vm_compute. discriminate. Qed.

(** C7 (amended): the URL [get] requests is the path URL followed by the
    query string of its parameters, and these are exactly: [type] when
    [options.type] is set to a non-empty string, [format] when
    [options.format] is set to a non-empty string, and [content=0] exactly
    when [options.content] is explicitly [false]; nothing else is sent,
    and no key twice. *)
Theorem get_query_fields (this : Contents.t) (path : string)
    (options : IContentsOpts.t) :
  Ajax.req_url (Ajax.send (get_url this path options) get_settings)
  = _getUrl this [path] ++ jsonToQueryString (get_params options)
  /\ (forall v, In ("type", v) (get_params options)
                <-> IContentsOpts.type options = Some v /\ v <> "")
  /\ (forall v, In ("format", v) (get_params options)
                <-> IContentsOpts.format options = Some v /\ v <> "")
  /\ (forall v, In ("content", v) (get_params options)
                <-> IContentsOpts.content options = Some (Bool false)
                    /\ v = "0")
  /\ (forall k v, In (k, v) (get_params options)
                  -> k = "type" \/ k = "format" \/ k = "content")
  /\ NoDup (map fst (get_params options)).
Proof.
  split; [reflexivity|].
  split; [intro v; rewrite in_get_params; intuition (discriminate || auto)|].
  split; [intro v; rewrite in_get_params; intuition (discriminate || auto)|].
  split; [intro v; rewrite in_get_params; intuition (discriminate || auto)|].
  split; [intros k v; rewrite in_get_params; tauto|].
  apply get_params_keys_distinct.
Qed.

(** C9 (as stated, refuted): the request of [listContents] carries
    [type=directory], so its URL does not end in a bare [?]. *)
Lemma listContents_url_has_parameter :
  get_url Fixture.client "nb" listContents_options
  = "api/contents/nb?type=directory"
  /\ ends_in_bare_query (get_url Fixture.client "nb" listContents_options)
     = false.
Proof. split; reflexivity. Qed.

Lemma ends_in_bare_query_app url : ends_in_bare_query (url ++ "?") = true.
Proof.
  unfold ends_in_bare_query, charAt.
  induction url as [|c url IH]; [reflexivity|].
  simpl String.length. simpl Nat.sub.
  destruct url as [|d url']; [reflexivity|].
  simpl in IH |- *. rewrite Nat.sub_0_r in IH. exact IH.
Qed.

(** C9 (amended): [get] always appends a query string; whenever neither
    [type] nor [format] is set to a non-empty string and [content] is not
    explicitly [false] (a plain [get] with empty options among them), the
    URL is the path URL followed by a bare [?], the query string of the
    empty mapping; [listContents] is not such a call: its only parameter
    is [type=directory]. *)
Theorem get_url_bare_query (this : Contents.t) (path : string)
    (options : IContentsOpts.t) :
  falsy (IContentsOpts.type options) ->
  falsy (IContentsOpts.format options) ->
  IContentsOpts.content options <> Some (Bool false) ->
  get_url this path options = _getUrl this [path] ++ "?"
  /\ ends_in_bare_query (get_url this path options) = true
  /\ jsonToQueryString [] = "?"
  /\ get_url this path listContents_options
     = _getUrl this [path] ++ "?type=directory".
Proof.
  intros Hty Hfmt Hcnt.
  assert (Hp : get_params options = []).
  { destruct options as [ty fmt cnt ex nm]. unfold get_params.
    cbn [IContentsOpts.type IContentsOpts.format IContentsOpts.content] in *.
    destruct Hty as [-> | ->], Hfmt as [-> | ->]; simpl;
      destruct cnt as [[ | |[|]| | | | ]|]; try reflexivity; congruence. }
  assert (Hu : get_url this path options = _getUrl this [path] ++ "?").
  { unfold get_url. rewrite Hp. reflexivity. }
  split; [exact Hu|]. split; [rewrite Hu; apply ends_in_bare_query_app|].
  split; reflexivity.
Qed.

Lemma get_url_bare_query_plain_get :
  get_url Fixture.client "nb" IContentsOpts.empty = "api/contents/nb?"
  /\ ends_in_bare_query (get_url Fixture.client "nb" IContentsOpts.empty)
     = true.
Proof.
  assert (H := get_url_bare_query Fixture.client "nb" IContentsOpts.empty
                 (or_introl eq_refl) (or_introl eq_refl)
                 ltac:(discriminate)).
  destruct H as (H1 & H2 & _). split; [rewrite H1; reflexivity|exact H2].
Defined.

End GetQuery.

(** ** The transport wrapper *)

Section AjaxRequest.

Import Ajax.

(** C10: [onload] hands the body to [JSON.parse] exactly when the declared
    [dataType] is [json] and the raw response is non-empty; otherwise the
    success outcome carries the raw response whatever [JSON.parse] would
    do, and in particular a load event with an empty body fulfils the
    request with the empty string as data. *)
Theorem onload_parses_only_nonempty_json
    (JSON_parse : string -> completion any)
    (settings : IAjaxSettings.t) (req : XMLHttpRequest.t) :
  let raw := XMLHttpRequest.response req in
  let success data :=
    {| IAjaxSuccess.data := data;
       IAjaxSuccess.statusText := XMLHttpRequest.statusText req;
       IAjaxSuccess.xhr := req |} in
  (IAjaxSettings.dataType settings = "json" /\ raw <> "" ->
   onload JSON_parse settings req
   = (data <- JSON_parse raw ;; Return (success data)))
  /\ (~ (IAjaxSettings.dataType settings = "json" /\ raw <> "") ->
      forall parse, onload parse settings req = Return (success (Str raw)))
  /\ (raw = "" ->
      forall parse network url,
        network (send url settings) = Load req ->
        ajaxRequest network parse url settings
        = Fulfilled (success (Str ""))).
Proof.
  intros raw success. subst raw. unfold ajaxRequest, onload.
  destruct (String.eqb_spec (IAjaxSettings.dataType settings) "json") as [Hj|Hj];
    destruct (XMLHttpRequest.response req) as [|c body] eqn:Hraw;
    cbn [JsString.is_empty negb andb bind];
    (split; [|split]).
  all: try (intros [H1 H2]; congruence).
  all: try (intros _ parse; reflexivity).
  all: try (intros H parse; exfalso; apply H; split; congruence).
  all: try (intros _ parse network url ->; rewrite Hraw; reflexivity).
  all: try discriminate.
  all: try (intros _; reflexivity).
Qed.

(** A 204 reply with an empty body, on a platform whose [JSON.parse]
    throws on the empty string. *)
Lemma empty_body_is_not_parsed :
  Fixture.parse "" = Throw "SyntaxError"
  /\ ajaxRequest (Fixture.replies_empty 204 "No Content") Fixture.parse
       "api/contents/nb" Contents.delete_settings
     = Fulfilled
         {| IAjaxSuccess.data := Str "";
            IAjaxSuccess.statusText := "No Content";
            IAjaxSuccess.xhr :=
              {| XMLHttpRequest.status := 204;
                 XMLHttpRequest.statusText := "No Content";
                 XMLHttpRequest.response := "" |} |}.
Proof. split; reflexivity. Qed.

End AjaxRequest.

(** ** The Contents client: status gate, validation gate, error mapping *)

Lemma forEach_returns {A} (f : A -> completion unit) (xs : list A) :
  forEach f xs = Return tt <-> Forall (fun x => f x = Return tt) xs.
Proof.
  induction xs as [|x rest IH]; simpl.
  - split; [constructor|reflexivity].
  - destruct (f x) as [[]|m] eqn:E; simpl.
    + rewrite IH. split.
      * intros H. constructor; assumption.
      * intros H. inversion H; assumption.
    + split; [discriminate|]. intros H. inversion H; congruence.
Qed.

Lemma completion_unit_cases (c : completion unit) :
  c = Return tt \/ exists m, c = Throw m.
Proof. destruct c as [[]|m]; [left|right; exists m]; reflexivity. Qed.

Section ContentsProperties.

Import JsString Contents.

Variable network : Ajax.request -> Ajax.xhr_event.
Variable JSON_parse : string -> completion any.
Variable JSON_stringify : any -> string.
Variable validateContentsModel : any -> completion unit.
Variable validateCheckpointModel : any -> completion unit.

Local Abbreviation invoke :=
  (Contents.invoke network JSON_parse JSON_stringify
                   validateContentsModel validateCheckpointModel).
Local Abbreviation transport :=
  (Contents.transport network JSON_parse JSON_stringify).
Local Abbreviation spec_valid :=
  (Contents.spec_valid validateContentsModel validateCheckpointModel).

(** Every method is its handlers chained on its transport outcome. *)
Ltac chain Htransport :=
  cbn [Contents.invoke Contents.transport] in *;
  unfold get, newUntitled, delete, rename, save, listContents, copy,
    createCheckpoint, restoreCheckpoint, deleteCheckpoint, listCheckpoints,
    get in *;
  rewrite Htransport in *;
  cbn [then_ then2] in *;
  unfold get_then, newUntitled_then, delete_then, rename_then, save_then,
    copy_then, createCheckpoint_then, restoreCheckpoint_then,
    deleteCheckpoint_then, listCheckpoints_then, delete_catch,
    invalid_status in *.

Ltac status_cases :=
  repeat match goal with
         | |- context [(?s =? ?n)%N] => destruct (N.eqb_spec s n)
         | H : context [(?s =? ?n)%N] |- _ => destruct (N.eqb_spec s n)
         end;
  cbn [negb andb orb settle bind] in *.

(** Every call is the handlers of its method chained on [transport]. *)
Lemma invoke_on_transport (this : Contents.t) (k : call) :
  invoke this k
  = match k with
    | Get _ _ | ListContents _ =>
        then_ (transport this k) (get_then validateContentsModel)
    | NewUntitled _ _ =>
        then_ (transport this k) (newUntitled_then validateContentsModel)
    | Delete _ => then2 (transport this k) delete_then delete_catch
    | Rename _ _ =>
        then_ (transport this k) (rename_then validateContentsModel)
    | Save _ _ => then_ (transport this k) (save_then validateContentsModel)
    | Copy _ _ => then_ (transport this k) (copy_then validateContentsModel)
    | CreateCheckpoint _ =>
        then_ (transport this k)
              (createCheckpoint_then validateCheckpointModel)
    | RestoreCheckpoint _ _ =>
        then_ (transport this k) restoreCheckpoint_then
    | DeleteCheckpoint _ _ =>
        then_ (transport this k) deleteCheckpoint_then
    | ListCheckpoints _ =>
        then_ (transport this k)
              (listCheckpoints_then validateCheckpointModel)
    end.
Proof. destruct k; reflexivity. Qed.

(** C1: a model-returning call whose transport succeeds with an accepted
    status and a payload that passes validation resolves with the payload
    of the transport outcome itself. *)
Theorem resolves_with_payload (this : Contents.t) (k : call)
    (success : IAjaxSuccess.t) :
  spec_returns k <> NoValue ->
  transport this k = Fulfilled success ->
  In (status_of success) (spec_accepted k) ->
  spec_valid (spec_returns k) (IAjaxSuccess.data success) ->
  invoke this k = Fulfilled (IAjaxSuccess.data success).
Proof.
  intros Hret Htr Hst Hval.
  destruct k; cbn [spec_returns spec_accepted Contents.spec_valid] in *;
    try congruence; chain Htr; status_cases;
    try (exfalso; simpl in Hst; intuition congruence);
    try (rewrite Hval; reflexivity).
  destruct Hval as (items & -> & Hall).
  apply forEach_returns in Hall. rewrite Hall. reflexivity.
Qed.

(** C2: whatever the payload, a transport success whose status is outside
    the accepted set of the call rejects with the status-mismatch error;
    [save] resolves on 200 as well as on 201 (given a valid payload). *)
Theorem rejects_unaccepted_status (this : Contents.t) (k : call)
    (success : IAjaxSuccess.t) :
  transport this k = Fulfilled success ->
  (~ In (status_of success) (spec_accepted k) ->
   invoke this k
   = Rejected (Error ("Invalid Status: " ++ of_N (status_of success))))
  /\ (forall path model,
        k = Save path model ->
        status_of success = 200%N \/ status_of success = 201%N ->
        validateContentsModel (IAjaxSuccess.data success) = Return tt ->
        invoke this k = Fulfilled (IAjaxSuccess.data success)).
Proof.
  intros Htr. split.
  - intros Hst.
    destruct k; cbn [spec_accepted] in *; chain Htr; status_cases;
      try reflexivity; exfalso; apply Hst; simpl; auto.
  - intros path model -> Hst Hval. chain Htr. status_cases;
      try (rewrite Hval; reflexivity); exfalso; destruct Hst; congruence.
Qed.

(** What the client resolves with has passed the validator of its
    shape. *)
Lemma resolved_payload_is_valid (this : Contents.t) (k : call) (v : any) :
  invoke this k = Fulfilled v -> spec_valid (spec_returns k) v.
Proof.
  intros H.
  destruct (transport this k) as [|success|e] eqn:Htr;
    destruct k; cbn [spec_returns Contents.spec_valid];
    try exact I; chain Htr; try discriminate; status_cases;
    try discriminate.
  all: try match goal with
    | H : context [validateContentsModel ?d] |- _ =>
        destruct (validateContentsModel d) as [[]|m] eqn:E;
        cbn [bind settle] in H; inversion H; subst; assumption
    | H : context [validateCheckpointModel ?d] |- _ =>
        destruct (validateCheckpointModel d) as [[]|m] eqn:E;
        cbn [bind settle] in H; inversion H; subst; assumption
    end.
  destruct (IAjaxSuccess.data success) as [ | | | | |items| ] eqn:Hd;
    try discriminate.
  destruct (forEach validateCheckpointModel items) as [[]|m] eqn:E;
    cbn [bind settle] in H; inversion H; subst.
  exists items. split; [reflexivity|]. apply forEach_returns. exact E.
Qed.

(** C3: with an accepted status but a payload the validator refuses, a
    model-returning call rejects; and whatever a call resolves with has
    passed validation, so no unvalidated content item or checkpoint
    record is ever returned. *)
Theorem rejects_invalid_payload (this : Contents.t) (k : call) :
  spec_returns k <> NoValue ->
  (forall success,
     transport this k = Fulfilled success ->
     In (status_of success) (spec_accepted k) ->
     ~ spec_valid (spec_returns k) (IAjaxSuccess.data success) ->
     exists message, invoke this k = Rejected (Error message))
  /\ (forall v, invoke this k = Fulfilled v -> spec_valid (spec_returns k) v).
Proof.
  intros Hret. split; [|apply resolved_payload_is_valid].
  intros success Htr Hst Hval.
  destruct k; cbn [spec_returns spec_accepted Contents.spec_valid] in *;
    try congruence; chain Htr; status_cases;
    try (exfalso; simpl in Hst; intuition congruence).
  all: try match goal with
    | |- context [validateContentsModel ?d] =>
        destruct (completion_unit_cases (validateContentsModel d))
          as [E|[m E]]; [contradiction|rewrite E; exists m; reflexivity]
    | |- context [validateCheckpointModel (IAjaxSuccess.data ?s)] =>
        destruct (completion_unit_cases
                    (validateCheckpointModel (IAjaxSuccess.data s)))
          as [E|[m E]]; [contradiction|rewrite E; exists m; reflexivity]
    end.
  destruct (IAjaxSuccess.data success) as [ | | | | |items| ];
    try (eexists; reflexivity).
  destruct (completion_unit_cases (forEach validateCheckpointModel items))
    as [E|[m E]]; [|rewrite E; exists m; reflexivity].
  exfalso. apply Hval. exists items. split; [reflexivity|].
  apply forEach_returns. exact E.
Qed.

(** C4: only [delete] translates a transport failure: status 400 becomes
    the error [Directory not found], any other status the error whose
    message is the transport's status text; every other call passes the
    transport's failure outcome on as it is. *)
Theorem delete_translates_transport_failure (this : Contents.t) (k : call)
    (error : IAjaxError.t) :
  transport this k = Rejected error ->
  (forall path,
     k = Delete path ->
     (XMLHttpRequest.status (IAjaxError.xhr error) = 400%N ->
      invoke this k = Rejected (Error "Directory not found"))
     /\ (XMLHttpRequest.status (IAjaxError.xhr error) <> 400%N ->
         invoke this k
         = Rejected
             (Error (XMLHttpRequest.statusText (IAjaxError.xhr error)))))
  /\ ((forall path, k <> Delete path) ->
      invoke this k = Rejected (AjaxError error)).
Proof.
  intros Htr. split.
  - intros path ->. chain Htr. status_cases; split; intros H;
      congruence || reflexivity.
  - intros Hk. destruct k; try (chain Htr; reflexivity).
    exfalso. eapply Hk. reflexivity.
Qed.

(** C5: on a 200 reply [listCheckpoints] rejects with the error
    [Invalid Checkpoint list] whenever the payload is not a sequence,
    whatever the checkpoint validator thinks of the payload itself; on a
    sequence it resolves with the payload when every element validates
    and rejects as soon as one element does not. *)
Theorem listCheckpoints_requires_sequence (this : Contents.t)
    (path : string) (success : IAjaxSuccess.t) :
  transport this (ListCheckpoints path) = Fulfilled success ->
  status_of success = 200%N ->
  ((forall items, IAjaxSuccess.data success <> Arr items) ->
   invoke this (ListCheckpoints path)
   = Rejected (Error "Invalid Checkpoint list"))
  /\ (forall items,
        IAjaxSuccess.data success = Arr items ->
        (Forall (fun x => validateCheckpointModel x = Return tt) items ->
         invoke this (ListCheckpoints path)
         = Fulfilled (IAjaxSuccess.data success))
        /\ (forall x,
              In x items -> validateCheckpointModel x <> Return tt ->
              exists message,
                invoke this (ListCheckpoints path)
                = Rejected (Error message))).
Proof.
  intros Htr Hst. chain Htr. rewrite Hst. cbn [N.eqb Pos.eqb negb].
  split.
  - intros Hseq.
    destruct (IAjaxSuccess.data success) as [ | | | | |items| ];
      try reflexivity.
    exfalso. apply (Hseq items). reflexivity.
  - intros items ->. split.
    + intros Hall. apply forEach_returns in Hall. rewrite Hall. reflexivity.
    + intros x Hin Hx.
      destruct (completion_unit_cases (forEach validateCheckpointModel items))
        as [E|[m E]]; [|rewrite E; exists m; reflexivity].
      exfalso. apply Hx. apply forEach_returns in E.
      rewrite Forall_forall in E. apply E. exact Hin.
Qed.

End ContentsProperties.

(** ** The deferred value *)

Section PromiseDelegateProperties.

Import PromiseDelegate.

Variables T R Observer : Type.

Local Abbreviation delegate := (PromiseDelegate.t T R Observer).
Local Abbreviation Promise := (JsPromise.Build_t T R Observer).
Local Abbreviation Delegate := (PromiseDelegate.Build_t T R Observer).

Lemma run_cons (d : delegate) a (rest : list (action T R Observer)) :
  run d (a :: rest) = run (step d a) rest.
Proof. reflexivity. Qed.

(** Execute one step on an explicit state. *)
Ltac exec :=
  rewrite run_cons;
  unfold step, resolve, reject, JsPromise.resolveFn, JsPromise.rejectFn,
    JsPromise.then_, JsPromise.thenable_calls_back, JsPromise.settle_with,
    JsPromise.lock;
  cbn.

(** Once settled, a delegate only queues one job per new observer. *)
Lemma run_settled (acts : list (action T R Observer)) :
  forall o rs js,
    run (Delegate (Promise (Some o) true None rs js)) acts
    = Delegate (Promise (Some o) true None rs
                        (js ++ map (notify o) (observers acts))).
Proof.
  induction acts as [|a rest IH]; intros o rs js.
  - simpl. rewrite app_nil_r. reflexivity.
  - destruct a as [x|r|obs| ]; exec.
    + apply IH.
    + apply IH.
    + rewrite IH. rewrite <- app_assoc. reflexivity.
    + apply IH.
Qed.

(** While it follows a thenable, a delegate ignores [resolve] and
    [reject] and waits for the thenable to call back. *)
Lemma run_following (acts : list (action T R Observer)) :
  forall e rs,
    run (Delegate (Promise None true (Some e) rs [])) acts
    = match delivered e acts with
      | Some o =>
          Delegate (Promise (Some o) true None []
                            (map (notify o) (rs ++ observers acts)))
      | None =>
          Delegate (Promise None true (Some e) (rs ++ observers acts) [])
      end.
Proof.
  induction acts as [|a rest IH]; intros e rs.
  - simpl. rewrite app_nil_r. reflexivity.
  - destruct a as [x|r|obs| ]; exec.
    + apply IH.
    + apply IH.
    + rewrite IH. rewrite <- app_assoc. reflexivity.
    + rewrite run_settled. rewrite map_app. reflexivity.
Qed.

(** A delegate nobody has invoked yet. *)
Lemma run_fresh (acts : list (action T R Observer)) :
  forall rs,
    let d := run (Delegate (Promise None false None rs [])) acts in
    JsPromise.state (promise d) = first_outcome acts
    /\ JsPromise.jobs (promise d)
       = match first_outcome acts with
         | Some o => map (notify o) (rs ++ observers acts)
         | None => []
         end
    /\ JsPromise.alreadyResolved (promise d) = existsb is_invocation acts.
Proof.
  induction acts as [|a rest IH]; intros rs.
  - simpl. auto.
  - cbn zeta. destruct a as [[v|e]|r|obs| ]; exec.
    + rewrite run_settled. cbn. rewrite map_app. auto.
    + rewrite run_following. destruct (delivered e rest); cbn; auto.
    + rewrite run_settled. cbn. rewrite map_app. auto.
    + specialize (IH (rs ++ [obs])%list). cbn in IH.
      rewrite <- app_assoc in IH. exact IH.
    + apply IH.
Qed.

(** C8: over any history of [resolve], [reject], [then] and thenable
    call-backs on a new delegate, the promise's outcome is the one the
    first invocation decides; once an invocation has happened every
    further [resolve] or [reject] leaves the delegate as it is; and the
    reaction jobs queued are exactly one per attached observer, in
    attachment order, each carrying that first outcome, whether the
    observer was attached before or after settlement. *)
Theorem settled_at_most_once (acts : list (action T R Observer)) :
  let d := run constructor acts in
  JsPromise.state (promise d) = first_outcome acts
  /\ JsPromise.jobs (promise d)
     = match first_outcome acts with
       | Some o => map (notify o) (observers acts)
       | None => []
       end
  /\ (existsb is_invocation acts = true ->
      forall value reason, resolve d value = d /\ reject d reason = d).
Proof.
  intros d. destruct (run_fresh acts []) as (Hs & Hj & Ha).
  change (run (Delegate (Promise None false None [] [])) acts) with d in *.
  split; [exact Hs|]. split; [exact Hj|].
  intros Hinv value reason. rewrite Hinv in Ha.
  clearbody d. destruct d as [p]. cbn in Ha.
  unfold resolve, reject, JsPromise.resolveFn, JsPromise.rejectFn. cbn.
  rewrite Ha. auto.
Qed.

(** Resolving then rejecting, and rejecting then resolving, with an
    observer before and one after. *)
Lemma first_action_wins (v : T) (r : R) (early late : Observer) :
  let resolved_first :=
    run constructor
        [Observe early; CallResolve (JsPromise.Plain v); CallReject r;
         Observe late] in
  let rejected_first :=
    run constructor
        [Observe early; CallReject r; CallResolve (JsPromise.Plain v);
         Observe late] in
  JsPromise.state (promise resolved_first) = Some (JsPromise.fulfilled v)
  /\ JsPromise.jobs (promise resolved_first)
     = [(early, JsPromise.fulfilled v); (late, JsPromise.fulfilled v)]
  /\ JsPromise.state (promise rejected_first) = Some (JsPromise.rejected r)
  /\ JsPromise.jobs (promise rejected_first)
     = [(early, JsPromise.rejected r); (late, JsPromise.rejected r)].
Proof. repeat split; reflexivity. Qed.

End PromiseDelegateProperties.

(** ** The end-to-end scenarios of the specification, on the fixtures *)

Section Scenarios.

Import Contents.

(** [save] against a 201 reply with a valid content item. *)
Lemma save_created_resolves :
  Fixture.invoke (Fixture.replies 201 "Created" Fixture.notebook)
                 (Save "nb.ipynb" Fixture.notebook)
  = Fulfilled Fixture.notebook.
Proof.
  apply (resolves_with_payload
           (Fixture.replies 201 "Created" Fixture.notebook)
           Fixture.parse Fixture.stringify
           Fixture.validateContentsModel Fixture.validateCheckpointModel
           Fixture.client (Save "nb.ipynb" Fixture.notebook)
           (Fixture.reply 201 "Created" Fixture.notebook)).
  - discriminate.
  - vm_compute. reflexivity.
  - simpl. auto.
  - vm_compute. reflexivity.
Defined.

(** [save] against a 500 reply, and against a 200 reply. *)
Lemma save_status_gate :
  Fixture.invoke (Fixture.replies 500 "Server Error" Fixture.notebook)
                 (Save "nb.ipynb" Fixture.notebook)
  = Rejected (Error "Invalid Status: 500")
  /\ Fixture.invoke (Fixture.replies 200 "OK" Fixture.notebook)
                    (Save "nb.ipynb" Fixture.notebook)
     = Fulfilled Fixture.notebook.
Proof.
  split.
  - apply (proj1 (rejects_unaccepted_status
             (Fixture.replies 500 "Server Error" Fixture.notebook)
             Fixture.parse Fixture.stringify
             Fixture.validateContentsModel Fixture.validateCheckpointModel
             Fixture.client (Save "nb.ipynb" Fixture.notebook)
             (Fixture.reply 500 "Server Error" Fixture.notebook)
             ltac:(vm_compute; reflexivity))).
    vm_compute. intros [H|[H|[]]]; discriminate.
  - apply (proj2 (rejects_unaccepted_status
             (Fixture.replies 200 "OK" Fixture.notebook)
             Fixture.parse Fixture.stringify
             Fixture.validateContentsModel Fixture.validateCheckpointModel
             Fixture.client (Save "nb.ipynb" Fixture.notebook)
             (Fixture.reply 200 "OK" Fixture.notebook)
             ltac:(vm_compute; reflexivity))
           "nb.ipynb" Fixture.notebook eq_refl).
    + left. reflexivity.
    + vm_compute. reflexivity.
Defined.

(** [save] against a 200 reply whose body lacks [path]. *)
Lemma save_invalid_body_rejects :
  exists message,
    Fixture.invoke (Fixture.replies 200 "OK" Fixture.pathless)
                   (Save "nb.ipynb" Fixture.notebook)
    = Rejected (Error message).
Proof.
  apply (proj1 (rejects_invalid_payload
           (Fixture.replies 200 "OK" Fixture.pathless)
           Fixture.parse Fixture.stringify
           Fixture.validateContentsModel Fixture.validateCheckpointModel
           Fixture.client (Save "nb.ipynb" Fixture.notebook)
           ltac:(discriminate))
         (Fixture.reply 200 "OK" Fixture.pathless)).
  - vm_compute. reflexivity.
  - simpl. auto.
  - vm_compute. discriminate.
Defined.

(** [delete] against a transport failure with status 400. *)
Lemma delete_directory_not_found :
  Fixture.invoke (Fixture.fails 400 "Bad Request") (Delete "dir")
  = Rejected (Error "Directory not found").
Proof.
  apply (proj1 (proj1 (delete_translates_transport_failure
           (Fixture.fails 400 "Bad Request")
           Fixture.parse Fixture.stringify
           Fixture.validateContentsModel Fixture.validateCheckpointModel
           Fixture.client (Delete "dir") (Fixture.failure 400 "Bad Request")
           ltac:(vm_compute; reflexivity))
         "dir" eq_refl)).
  reflexivity.
Defined.

(** [listCheckpoints] against a 200 reply carrying one checkpoint record
    instead of a sequence. *)
Lemma listCheckpoints_single_record_rejects :
  Fixture.validateCheckpointModel Fixture.checkpoint = Return tt
  /\ Fixture.invoke (Fixture.replies 200 "OK" Fixture.checkpoint)
                    (ListCheckpoints "nb.ipynb")
     = Rejected (Error "Invalid Checkpoint list").
Proof.
  split; [reflexivity|].
  apply (proj1 (listCheckpoints_requires_sequence
           (Fixture.replies 200 "OK" Fixture.checkpoint)
           Fixture.parse Fixture.stringify
           Fixture.validateContentsModel Fixture.validateCheckpointModel
           Fixture.client "nb.ipynb" (Fixture.reply 200 "OK" Fixture.checkpoint)
           ltac:(vm_compute; reflexivity) eq_refl)).
  intros items. vm_compute. discriminate.
Defined.

End Scenarios.

(** * Further properties of the utilities *)

(** ** Strings *)

Section StringFacts.

Import JsString.

Lemma string_app_assoc (a b c : string) : (a ++ b) ++ c = a ++ b ++ c.
Proof. induction a as [|x a IH]; simpl; [reflexivity|]. rewrite IH. reflexivity. Qed.

Lemma string_app_nil_r (a : string) : a ++ "" = a.
Proof. induction a as [|x a IH]; simpl; [reflexivity|]. rewrite IH. reflexivity. Qed.

Lemma string_length_app (a b : string) :
  String.length (a ++ b) = String.length a + String.length b.
Proof. induction a as [|x a IH]; simpl; [reflexivity|]. rewrite IH. reflexivity. Qed.

Lemma string_app_empty (a b : string) : a ++ b = "" -> a = "" /\ b = "".
Proof. destruct a; simpl; [auto|discriminate]. Qed.

Lemma count_char_app c (a b : string) :
  count_char c (a ++ b) = count_char c a + count_char c b.
Proof.
  induction a as [|x a IH]; simpl; [reflexivity|]. rewrite IH. lia.
Qed.

Lemma string_forall_app P (a b : string) :
  string_forall P (a ++ b) = string_forall P a && string_forall P b.
Proof.
  induction a as [|x a IH]; simpl; [reflexivity|].
  rewrite IH. rewrite andb_assoc. reflexivity.
Qed.

Lemma string_forall_impl (P Q : ascii -> bool) (s : string) :
  (forall c, P c = true -> Q c = true) ->
  string_forall P s = true -> string_forall Q s = true.
Proof.
  intros HPQ. induction s as [|x s IH]; simpl; [reflexivity|].
  rewrite !andb_true_iff. intros [Hx Hs]. auto.
Qed.

(** A character outside [P] does not occur in a string all in [P]. *)
Lemma count_char_outside P c (s : string) :
  P c = false -> string_forall P s = true -> count_char c s = 0.
Proof.
  intros Hc. induction s as [|x s IH]; simpl; [reflexivity|].
  rewrite andb_true_iff. intros [Hx Hs]. rewrite (IH Hs).
  destruct (Ascii.eqb_spec x c); [congruence|reflexivity].
Qed.

Lemma ends_with_slash_cons c (s : string) :
  s <> "" -> ends_with_slash (String c s) = ends_with_slash s.
Proof.
  intros Hs. destruct s as [|d s']; [congruence|].
  unfold ends_with_slash, charAt. simpl String.length.
  rewrite !Nat.sub_succ, !Nat.sub_0_r. reflexivity.
Qed.

(** The last character of [a ++ b] is that of [b], when there is one. *)
Lemma ends_with_slash_app (a b : string) :
  b <> "" -> ends_with_slash (a ++ b) = ends_with_slash b.
Proof.
  intros Hb. induction a as [|x a IH]; [reflexivity|].
  simpl append. rewrite ends_with_slash_cons; [exact IH|].
  intros H. apply string_app_empty in H. tauto.
Qed.

Lemma slash_free_no_trailing_slash (s : string) :
  slash_free s = true -> ends_with_slash s = false.
Proof.
  induction s as [|c s IH]; [reflexivity|].
  unfold slash_free. simpl. rewrite andb_true_iff. intros [Hc Hs].
  destruct s as [|d s'].
  - unfold ends_with_slash, charAt. simpl. unfold slash in Hc.
    destruct (c =? "/")%char; [discriminate|reflexivity].
  - rewrite ends_with_slash_cons by discriminate. apply IH. exact Hs.
Qed.

Lemma nonempty_true (s : string) : nonempty s = true <-> s <> "".
Proof. destruct s; unfold nonempty; simpl; split; congruence. Qed.

Lemma join_cons_cons sep (x y : string) (l : list string) :
  join sep (x :: y :: l) = x ++ sep ++ join sep (y :: l).
Proof. reflexivity. Qed.

(** Joining two non-empty lists joins their joins. *)
Lemma join_app sep (xs ys : list string) :
  xs <> [] -> ys <> [] ->
  join sep (xs ++ ys)%list = join sep xs ++ sep ++ join sep ys.
Proof.
  intros Hxs Hys. induction xs as [|x xs IH]; [congruence|].
  destruct xs as [|x' xs'].
  - destruct ys as [|y ys]; [congruence|]. reflexivity.
  - change ((x :: x' :: xs') ++ ys)%list with (x :: x' :: (xs' ++ ys))%list.
    rewrite !join_cons_cons.
    change (x' :: (xs' ++ ys))%list with ((x' :: xs') ++ ys)%list.
    rewrite IH by discriminate. rewrite !string_app_assoc. reflexivity.
Qed.

End StringFacts.

(** ** [urlPathJoin] *)

Section UrlPathJoinMore.

Import JsString Utils.

Lemma urlPathJoin_loop_cons i p rest url :
  p <> "" ->
  urlPathJoin_loop i (p :: rest) url
  = urlPathJoin_loop (S i) rest (url ++ separator url ++ p).
Proof.
  intros Hp. destruct p as [|c p']; [congruence|].
  cbn [urlPathJoin_loop is_empty]. unfold separator, ends_with_slash.
  destruct ((0 <? String.length url)%nat
            && negb (charAt url (String.length url - 1) =? "/"));
    reflexivity.
Qed.

Lemma urlPathJoin_loop_filter paths :
  forall i j url,
    urlPathJoin_loop i paths url
    = urlPathJoin_loop j (filter nonempty paths) url.
Proof.
  induction paths as [|p rest IH]; intros i j url; [reflexivity|].
  destruct p as [|c p'].
  - simpl. apply IH.
  - cbn [filter nonempty is_empty negb].
    rewrite !urlPathJoin_loop_cons by discriminate. apply IH.
Qed.

(** X1: Empty segments have no effect on the result, wherever they stand. *)
Theorem urlPathJoin_ignores_empty_segments (paths : list string) :
  urlPathJoin paths = urlPathJoin (filter nonempty paths).
Proof. apply urlPathJoin_loop_filter. Qed.

Lemma urlPathJoin_loop_app xs :
  forall ys i j url,
    urlPathJoin_loop i (xs ++ ys)%list url
    = urlPathJoin_loop j ys (urlPathJoin_loop i xs url).
Proof.
  induction xs as [|x xs IH]; intros ys i j url.
  - simpl. apply urlPathJoin_loop_index.
  - destruct x as [|c x'].
    + simpl. apply IH.
    + change ((String c x' :: xs) ++ ys)%list
        with (String c x' :: (xs ++ ys))%list.
      rewrite !urlPathJoin_loop_cons by discriminate. apply IH.
Qed.

Lemma urlPathJoin_stages (xs ys : list string) :
  urlPathJoin (xs ++ ys)%list = urlPathJoin (urlPathJoin xs :: ys).
Proof.
  unfold urlPathJoin at 1 2.
  rewrite (urlPathJoin_loop_app xs ys 0 1 "").
  fold (urlPathJoin xs).
  destruct (urlPathJoin xs) as [|c u] eqn:E.
  - reflexivity.
  - rewrite urlPathJoin_loop_cons by discriminate. reflexivity.
Qed.

(** X2: Joining in two stages gives the same result as joining at once. *)
Theorem urlPathJoin_in_stages (xs ys : list string) :
  urlPathJoin (xs ++ ys)%list = urlPathJoin (urlPathJoin xs :: ys).
Proof. exact (urlPathJoin_stages xs ys). Qed.

Lemma urlPathJoin_loop_extends paths :
  forall i url, exists suffix, urlPathJoin_loop i paths url = url ++ suffix.
Proof.
  induction paths as [|p rest IH]; intros i url.
  - exists "". simpl. rewrite string_app_nil_r. reflexivity.
  - destruct p as [|c p'].
    + simpl. apply IH.
    + rewrite urlPathJoin_loop_cons by discriminate.
      destruct (IH (S i) (url ++ separator url ++ String c p')) as [sfx H].
      exists ((separator url ++ String c p') ++ sfx).
      rewrite H. rewrite !string_app_assoc. reflexivity.
Qed.

(** X4: The result starts with the first segment, untouched. *)
Theorem urlPathJoin_starts_with_first (p : string) (rest : list string) :
  exists suffix, urlPathJoin (p :: rest) = p ++ suffix.
Proof.
  destruct p as [|c p'].
  - exists (urlPathJoin (""%string :: rest)). reflexivity.
  - unfold urlPathJoin. rewrite urlPathJoin_loop_cons by discriminate.
    apply urlPathJoin_loop_extends.
Qed.

Lemma count_char_separator c url :
  c <> slash -> count_char c (separator url) = 0.
Proof.
  intros Hc. unfold separator.
  destruct ((0 <? String.length url)%nat && negb (ends_with_slash url));
    [|reflexivity].
  cbn [count_char].
  destruct (Ascii.eqb_spec "/"%char c) as [E|E]; [|reflexivity].
  exfalso. apply Hc. symmetry. exact E.
Qed.

Lemma count_char_urlPathJoin_loop c paths :
  c <> slash ->
  forall i url,
    count_char c (urlPathJoin_loop i paths url)
    = count_char c url + list_sum (map (count_char c) paths).
Proof.
  intros Hc. induction paths as [|p rest IH]; intros i url.
  - simpl. lia.
  - destruct p as [|d p'].
    + simpl. apply IH.
    + rewrite urlPathJoin_loop_cons by discriminate. rewrite IH.
      rewrite !count_char_app, count_char_separator by assumption.
      unfold list_sum. cbn [map fold_right]. lia.
Qed.

(** X5: Joining only ever adds slashes: any other character occurs in the
    result exactly as often as in the segments together. *)
Theorem urlPathJoin_adds_only_slashes (c : ascii) (paths : list string) :
  c <> "/"%char ->
  count_char c (urlPathJoin paths) = list_sum (map (count_char c) paths).
Proof.
  intros Hc. unfold urlPathJoin.
  rewrite count_char_urlPathJoin_loop by exact Hc. reflexivity.
Qed.

Lemma urlPathJoin_loop_clean paths :
  Forall (fun p => ends_with_slash p = false) paths ->
  forall i url,
    ends_with_slash url = false ->
    urlPathJoin_loop i paths url
    = join "/" ((if is_empty url then [] else [url])
                ++ filter nonempty paths)%list.
Proof.
  induction 1 as [|p rest Hp Hrest IH]; intros i url Hurl.
  - simpl. destruct url; [reflexivity|]. reflexivity.
  - destruct p as [|c p'].
    + simpl. apply IH. exact Hurl.
    + rewrite urlPathJoin_loop_cons by discriminate.
      cbn [filter nonempty is_empty negb].
      destruct url as [|d url'].
      * simpl append. rewrite IH by exact Hp. reflexivity.
      * assert (Hsep : separator (String d url') = "/").
        { unfold separator. rewrite Hurl. reflexivity. }
        rewrite Hsep. rewrite IH.
        2:{ rewrite ends_with_slash_app by discriminate.
            rewrite ends_with_slash_app by discriminate. exact Hp. }
        cbn [is_empty append app].
        destruct (filter nonempty rest) as [|q qs]; simpl;
          rewrite ?string_app_assoc; reflexivity.
Qed.

Lemma urlPathJoin_clean (paths : list string) :
  Forall (fun p => ends_with_slash p = false) paths ->
  urlPathJoin paths = join "/" (filter nonempty paths).
Proof.
  intros H. unfold urlPathJoin.
  rewrite urlPathJoin_loop_clean by (exact H || reflexivity). reflexivity.
Qed.

(** X3: When no segment ends in a slash, the result is the non-empty segments
    with exactly one slash between neighbours. *)
Theorem urlPathJoin_clean_segments (paths : list string) :
  Forall (fun p => ends_with_slash p = false) paths ->
  urlPathJoin paths = join "/" (filter nonempty paths).
Proof. exact (urlPathJoin_clean paths). Qed.

Lemma urlPathJoin_clean_segments_example :
  urlPathJoin ["http://host"; ""; "api/contents"; "nb.ipynb"]
  = join "/" ["http://host"; "api/contents"; "nb.ipynb"].
Proof.
  apply (urlPathJoin_clean_segments
           ["http://host"; ""; "api/contents"; "nb.ipynb"]).
  repeat constructor.
Defined.

Lemma urlPathJoin_adds_only_slashes_example :
  count_char "?" (urlPathJoin ["a?b"; "c?"]) = 2.
Proof.
  apply (urlPathJoin_adds_only_slashes "?" ["a?b"; "c?"]). discriminate.
Defined.

End UrlPathJoinMore.

(** ** Percent-encoding *)

Section Encoding.

Import JsString Uri Utils.

Lemma in_all_ascii (c : ascii) : In c all_ascii.
Proof.
  unfold all_ascii. rewrite <- (ascii_nat_embedding c).
  apply in_map. apply in_seq. pose proof (nat_ascii_bounded c). lia.
Qed.

(** A fact checked on each of the 256 characters holds of every one. *)
Lemma for_all_ascii (P : ascii -> bool) :
  forallb P all_ascii = true -> forall c, P c = true.
Proof.
  intros H c. rewrite forallb_forall in H. apply H. apply in_all_ascii.
Qed.

Lemma percent_chars (c : ascii) : string_forall component_char (percent c) = true.
Proof.
  revert c. apply for_all_ascii. vm_compute. reflexivity.
Qed.

Lemma percent_shape (c : ascii) :
  exists h l, percent c = String "%" (String h (String l "")).
Proof. unfold percent. eauto. Qed.

Lemma percent_injective (c d : ascii) : percent c = percent d -> c = d.
Proof.
  assert (H : forall c,
             forallb (fun d => implb (percent c =? percent d) (Ascii.eqb c d))
                     all_ascii = true).
  { apply for_all_ascii. vm_compute. reflexivity. }
  intros E. specialize (H c). rewrite forallb_forall in H.
  specialize (H d (in_all_ascii d)).
  rewrite E, String.eqb_refl in H. apply Ascii.eqb_eq. exact H.
Qed.

Lemma encodeURIComponent_chars (s : string) :
  string_forall component_char (encodeURIComponent s) = true.
Proof.
  induction s as [|c s IH]; [reflexivity|].
  simpl. rewrite string_forall_app, IH, andb_true_r.
  destruct (unreserved c) eqn:E.
  - simpl. unfold component_char. rewrite E. reflexivity.
  - apply percent_chars.
Qed.

(** An encoded component consists of unreserved characters and percent
    signs only: no slash, question mark, ampersand, equals sign, hash or
    space survives. *)
Theorem encodeURIComponent_output_alphabet (s : string) :
  string_forall component_char (encodeURIComponent s) = true.
Proof. exact (encodeURIComponent_chars s). Qed.

Lemma encodeURIComponent_lacks (c : ascii) (s : string) :
  component_char c = false -> count_char c (encodeURIComponent s) = 0.
Proof.
  intros Hc. apply (count_char_outside component_char); [exact Hc|].
  apply encodeURIComponent_chars.
Qed.

Lemma encodeURIComponent_slash_free (s : string) :
  slash_free (encodeURIComponent s) = true.
Proof.
  apply (string_forall_impl component_char);
    [|apply encodeURIComponent_chars].
  intros c Hc. destruct (Ascii.eqb_spec c slash) as [->|]; [|reflexivity].
  vm_compute in Hc. discriminate.
Qed.

Lemma encodeURIComponent_length_eq (s : string) :
  String.length (encodeURIComponent s)
  = String.length s + 2 * count_if (fun c => negb (unreserved c)) s.
Proof.
  induction s as [|c s IH]; [reflexivity|].
  simpl. rewrite string_length_app, IH.
  destruct (unreserved c); simpl; lia.
Qed.

(** Every character that is not unreserved costs two extra characters. *)
Theorem encodeURIComponent_length (s : string) :
  String.length (encodeURIComponent s)
  = String.length s + 2 * count_if (fun c => negb (unreserved c)) s.
Proof. exact (encodeURIComponent_length_eq s). Qed.

(** Encoding leaves a string as it is exactly when all its characters are
    unreserved. *)
Theorem encodeURIComponent_fixpoint (s : string) :
  encodeURIComponent s = s <-> string_forall unreserved s = true.
Proof.
  split.
  - intros E. pose proof (encodeURIComponent_length_eq s) as L.
    rewrite E in L.
    assert (Z : count_if (fun c => negb (unreserved c)) s = 0) by lia.
    clear E L. induction s as [|c s IH]; [reflexivity|].
    simpl in Z |- *. destruct (unreserved c); simpl in Z; [|lia].
    apply IH. exact Z.
  - induction s as [|c s IH]; [reflexivity|].
    simpl. rewrite andb_true_iff. intros [Hc Hs].
    rewrite Hc, (IH Hs). reflexivity.
Qed.

Lemma encodeURIComponent_inj (s : string) :
  forall t, encodeURIComponent s = encodeURIComponent t -> s = t.
Proof.
  induction s as [|c s IH]; intros [|d t] E.
  - reflexivity.
  - exfalso. simpl in E. destruct (unreserved d); [discriminate|].
    destruct (percent_shape d) as (h & l & Hd). rewrite Hd in E.
    discriminate.
  - exfalso. simpl in E. destruct (unreserved c); [discriminate|].
    destruct (percent_shape c) as (h & l & Hc). rewrite Hc in E.
    discriminate.
  - simpl in E.
    destruct (unreserved c) eqn:Uc, (unreserved d) eqn:Ud.
    + simpl in E. inversion E; subst. f_equal. apply IH. assumption.
    + exfalso. destruct (percent_shape d) as (h & l & Hd).
      rewrite Hd in E. simpl in E. inversion E; subst.
      vm_compute in Uc. discriminate.
    + exfalso. destruct (percent_shape c) as (h & l & Hc).
      rewrite Hc in E. simpl in E. inversion E; subst.
      vm_compute in Ud. discriminate.
    + destruct (percent_shape c) as (h & l & Hc).
      destruct (percent_shape d) as (h' & l' & Hd).
      assert (c = d) as ->.
      { apply percent_injective. rewrite Hc, Hd in *. simpl in E.
        inversion E; subst. reflexivity. }
      rewrite Hc in E. simpl in E. inversion E as [E'].
      f_equal. apply IH. exact E'.
Qed.

(** Two components encode to the same text only when they are the same
    component. *)
Theorem encodeURIComponent_injective (s t : string) :
  encodeURIComponent s = encodeURIComponent t <-> s = t.
Proof.
  split; [apply encodeURIComponent_inj|]. intros ->. reflexivity.
Qed.

(** *** Splitting and joining on slashes *)

Lemma split_slash_nonempty (s : string) : split_slash s <> [].
Proof.
  destruct s as [|c s]; simpl; [discriminate|].
  destruct (Ascii.eqb c slash); [discriminate|].
  destruct (split_slash s); discriminate.
Qed.

Lemma split_slash_cons c (s : string) :
  split_slash (String c s)
  = if Ascii.eqb c slash then "" :: split_slash s
    else match split_slash s with
         | piece :: rest => String c piece :: rest
         | [] => [String c ""]
         end.
Proof. reflexivity. Qed.

Lemma split_slash_app (a b : string) :
  split_slash (a ++ "/" ++ b) = (split_slash a ++ split_slash b)%list.
Proof.
  induction a as [|c a IH]; [reflexivity|].
  change (String c a ++ "/" ++ b) with (String c (a ++ "/" ++ b)).
  rewrite !split_slash_cons, IH.
  destruct (Ascii.eqb c slash); [reflexivity|].
  destruct (split_slash a) as [|piece rest] eqn:E; [|reflexivity].
  exfalso. exact (split_slash_nonempty a E).
Qed.

Lemma split_slash_slash_free (s : string) :
  slash_free s = true -> split_slash s = [s].
Proof.
  induction s as [|c s IH]; [reflexivity|].
  unfold slash_free. simpl. rewrite andb_true_iff. intros [Hc Hs].
  destruct (Ascii.eqb c slash); [discriminate|].
  rewrite (IH Hs). reflexivity.
Qed.

Lemma split_slash_join (xs : list string) :
  xs <> [] -> Forall (fun x => slash_free x = true) xs ->
  split_slash (join "/" xs) = xs.
Proof.
  intros Hne H. induction H as [|x xs Hx Hxs IH]; [congruence|].
  destruct xs as [|y ys].
  - simpl. apply split_slash_slash_free. exact Hx.
  - rewrite join_cons_cons, split_slash_app.
    rewrite (split_slash_slash_free x Hx), IH by discriminate. reflexivity.
Qed.

Lemma encodeURIComponents_app (a b : string) :
  encodeURIComponents (a ++ "/" ++ b)
  = encodeURIComponents a ++ "/" ++ encodeURIComponents b.
Proof.
  unfold encodeURIComponents. rewrite split_slash_app, map_app.
  apply join_app; intros H; apply map_eq_nil in H;
    exact (split_slash_nonempty _ H).
Qed.

(** X7: The path encoder works component by component: it is a homomorphism
    for joining with a slash. *)
Theorem encodeURIComponents_distributes (a b : string) :
  encodeURIComponents (a ++ "/" ++ b)
  = encodeURIComponents a ++ "/" ++ encodeURIComponents b.
Proof. exact (encodeURIComponents_app a b). Qed.

(** X8: Encoding changes no component boundary: the encoded path splits into
    the encodings of the components of the path. *)
Theorem encodeURIComponents_keeps_components (uri : string) :
  split_slash (encodeURIComponents uri)
  = map encodeURIComponent (split_slash uri).
Proof.
  unfold encodeURIComponents. apply split_slash_join.
  - intros H. apply map_eq_nil in H. exact (split_slash_nonempty _ H).
  - apply Forall_map. apply Forall_forall. intros x _.
    apply encodeURIComponent_slash_free.
Qed.

Lemma encodeURIComponents_chars (uri : string) :
  string_forall path_char (encodeURIComponents uri) = true.
Proof.
  unfold encodeURIComponents.
  assert (H : forall xs,
             string_forall path_char (join "/" (map encodeURIComponent xs))
             = true).
  { induction xs as [|x xs IH]; [reflexivity|].
    assert (Hx : string_forall path_char (encodeURIComponent x) = true).
    { apply (string_forall_impl component_char);
        [|apply encodeURIComponent_chars].
      intros c Hc. unfold path_char. rewrite Hc. reflexivity. }
    destruct xs as [|y ys]; [exact Hx|].
    cbn [map] in *. rewrite join_cons_cons.
    rewrite !string_forall_app, Hx, IH. reflexivity. }
  apply H.
Qed.

Lemma join_split_slash (s : string) : join "/" (split_slash s) = s.
Proof.
  induction s as [|c s IH]; [reflexivity|].
  rewrite split_slash_cons.
  destruct (Ascii.eqb_spec c slash) as [->|Hc].
  - destruct (split_slash s) as [|y ys] eqn:E;
      [exact (False_ind _ (split_slash_nonempty s E))|].
    rewrite join_cons_cons, IH. reflexivity.
  - destruct (split_slash s) as [|piece rest] eqn:E;
      [exact (False_ind _ (split_slash_nonempty s E))|].
    rewrite <- IH. destruct rest as [|y ys]; reflexivity.
Qed.

Lemma map_encodeURIComponent_inj (xs : list string) :
  forall ys,
    map encodeURIComponent xs = map encodeURIComponent ys -> xs = ys.
Proof.
  induction xs as [|x xs IH]; intros [|y ys] E; try discriminate.
  - reflexivity.
  - cbn [map] in E. inversion E as [[Hx Hxs]].
    f_equal; [apply encodeURIComponent_inj; exact Hx|apply IH; exact Hxs].
Qed.

(** X9: Two paths encode to the same text only when they are the same path. *)
Theorem encodeURIComponents_injective (a b : string) :
  encodeURIComponents a = encodeURIComponents b <-> a = b.
Proof.
  split; [|intros ->; reflexivity]. intros E.
  assert (H : split_slash (encodeURIComponents a)
              = split_slash (encodeURIComponents b)) by (rewrite E; reflexivity).
  unfold encodeURIComponents in H.
  rewrite !split_slash_join in H.
  - apply map_encodeURIComponent_inj in H.
    rewrite <- (join_split_slash a), <- (join_split_slash b), H.
    reflexivity.
  - intros N. apply map_eq_nil in N. exact (split_slash_nonempty _ N).
  - apply Forall_map. apply Forall_forall. intros x _.
    apply encodeURIComponent_slash_free.
  - intros N. apply map_eq_nil in N. exact (split_slash_nonempty _ N).
  - apply Forall_map. apply Forall_forall. intros x _.
    apply encodeURIComponent_slash_free.
Qed.

(** X6: An encoded path consists of unreserved characters, percent signs and
    slashes only. *)
Theorem encodeURIComponents_output_alphabet (uri : string) :
  string_forall path_char (encodeURIComponents uri) = true.
Proof. exact (encodeURIComponents_chars uri). Qed.

(** X10: For segments without slashes, [urlJoinEncode] is the encodings of the
    non-empty segments with one slash between neighbours. *)
Theorem urlJoinEncode_clean_segments (args : list string) :
  Forall (fun a => slash_free a = true) args ->
  urlJoinEncode args
  = join "/" (map encodeURIComponent (filter nonempty args)).
Proof.
  intros H. unfold urlJoinEncode.
  rewrite urlPathJoin_clean.
  2:{ eapply Forall_impl; [|exact H].
      intros a. apply slash_free_no_trailing_slash. }
  assert (Hf : Forall (fun a => slash_free a = true) (filter nonempty args)).
  { rewrite Forall_forall in *. intros a Ha. apply filter_In in Ha.
    apply H. tauto. }
  destruct (filter nonempty args) as [|x xs] eqn:E; [reflexivity|].
  unfold encodeURIComponents.
  rewrite split_slash_join by (discriminate || exact Hf). reflexivity.
Qed.

Lemma urlJoinEncode_clean_segments_example :
  urlJoinEncode ["my notebook.ipynb"; "checkpoints"; "cp 1"]
  = join "/" ["my%20notebook.ipynb"; "checkpoints"; "cp%201"].
Proof.
  apply (urlJoinEncode_clean_segments
           ["my notebook.ipynb"; "checkpoints"; "cp 1"]).
  repeat constructor.
Defined.

End Encoding.

(** ** Query strings *)

Section QueryString.

Import JsString Uri Utils.

Local Abbreviation entry :=
  (fun kv : string * string =>
     encodeURIComponent (fst kv) ++ "=" ++ encodeURIComponent (snd kv)).

Lemma count_char_entry c (kv : string * string) :
  component_char c = false ->
  count_char c (encodeURIComponent (fst kv) ++ "="
                ++ encodeURIComponent (snd kv))
  = if Ascii.eqb "=" c then 1 else 0.
Proof.
  intros Hc.
  rewrite !count_char_app, !encodeURIComponent_lacks by exact Hc.
  cbn [count_char]. lia.
Qed.

Lemma count_char_entries c (json : list (string * string)) :
  component_char c = false ->
  count_char c (join "&" (map entry json))
  = List.length json * (if Ascii.eqb "=" c then 1 else 0)
    + pred (List.length json) * (if Ascii.eqb "&" c then 1 else 0).
Proof.
  intros Hc. induction json as [|kv json IH]; [reflexivity|].
  destruct json as [|kv' json'].
  - cbn [map join String.concat]. rewrite count_char_entry by exact Hc.
    simpl. lia.
  - cbn [map] in *. rewrite join_cons_cons.
    rewrite count_char_app, count_char_entry, count_char_app, IH
      by exact Hc.
    cbn [count_char List.length pred]. lia.
Qed.

(** X11: Keys and values cannot add separators of their own: the query string
    has one question mark, one equals sign per parameter and one ampersand
    between neighbours. *)
Theorem jsonToQueryString_separators (json : list (string * string)) :
  count_char "?" (jsonToQueryString json) = 1
  /\ count_char "=" (jsonToQueryString json) = List.length json
  /\ count_char "&" (jsonToQueryString json) = pred (List.length json).
Proof.
  unfold jsonToQueryString.
  repeat split; rewrite count_char_app, count_char_entries by reflexivity;
    simpl; lia.
Qed.

End QueryString.

(** ** [uuid] *)

Section Uuid.

Import JsString Utils.

Lemma charAt_hexDigits (n : nat) :
  n < 16 ->
  exists c, charAt hexDigits n = String c "" /\ is_hexDigit c = true.
Proof.
  intros Hn.
  do 16 (destruct n as [|n]; [eexists; split; reflexivity|]). lia.
Qed.

Lemma join_empty_chars (P : ascii -> bool) (xs : list string) :
  Forall (fun x => exists c, x = String c "" /\ P c = true) xs ->
  String.length (join "" xs) = List.length xs
  /\ string_forall P (join "" xs) = true.
Proof.
  induction 1 as [|x xs (c & -> & Hc) Hxs [IHl IHp]]; [split; reflexivity|].
  destruct xs as [|y ys].
  - simpl. rewrite Hc. split; reflexivity.
  - rewrite join_cons_cons. cbn [append string_forall String.length].
    rewrite IHl, IHp, Hc. split; reflexivity.
Qed.

(** X12: Whatever the random draws (each below [nChars], as the floor of a
    number in [[0, 16)] is), the identifier has 32 characters, all of them
    lower-case hexadecimal digits. *)
Theorem uuid_is_32_hex_digits (draw : nat -> nat) :
  (forall i, i < 32 -> draw i < String.length hexDigits) ->
  String.length (uuid draw) = 32
  /\ string_forall is_hexDigit (uuid draw) = true.
Proof.
  intros Hdraw. unfold uuid.
  destruct (join_empty_chars is_hexDigit
              (map (fun i => charAt hexDigits (draw i)) (seq 0 32)))
    as [Hl Hp].
  - apply Forall_map. apply Forall_forall. intros i Hi.
    apply in_seq in Hi. apply charAt_hexDigits. apply Hdraw. lia.
  - rewrite Hl, length_map, length_seq. split; [reflexivity|exact Hp].
Qed.

Lemma uuid_is_32_hex_digits_example :
  String.length (uuid (fun i => (7 * i + 3) mod 16)) = 32
  /\ string_forall is_hexDigit (uuid (fun i => (7 * i + 3) mod 16)) = true.
Proof.
  apply (uuid_is_32_hex_digits (fun i => (7 * i + 3) mod 16)).
  intros i _. apply Nat.mod_upper_bound. discriminate.
Defined.

End Uuid.

(** ** The transport wrapper, continued *)

Section AjaxRequestMore.

Import Ajax.

Variable network : request -> xhr_event.
Variable JSON_parse : string -> completion any.


(** X14: A non-empty body that [JSON.parse] refuses, on a request that declared
    [json], leaves the promise pending: the exception is raised inside the
    load handler and nothing settles the promise. *)
Theorem ajaxRequest_malformed_body_never_settles (url : string)
    (settings : IAjaxSettings.t) (req : XMLHttpRequest.t) (m : string) :
  network (send url settings) = Load req ->
  IAjaxSettings.dataType settings = "json" ->
  XMLHttpRequest.response req <> "" ->
  JSON_parse (XMLHttpRequest.response req) = Throw m ->
  ajaxRequest network JSON_parse url settings = Pending.
Proof.
  intros Hload Hjson Hbody Hparse. unfold ajaxRequest, onload.
  rewrite Hload, Hjson, Hparse.
  destruct (XMLHttpRequest.response req); [congruence|reflexivity].
Qed.

End AjaxRequestMore.

Lemma ajaxRequest_malformed_body_example :
  Ajax.ajaxRequest
    (fun _ => Ajax.Load {| XMLHttpRequest.status := 200;
                           XMLHttpRequest.statusText := "OK";
                           XMLHttpRequest.response := "<html>" |})
    Fixture.parse "api/contents/nb" Contents.get_settings
  = Pending.
Proof.
  apply (ajaxRequest_malformed_body_never_settles
           (fun _ => Ajax.Load {| XMLHttpRequest.status := 200;
                                  XMLHttpRequest.statusText := "OK";
                                  XMLHttpRequest.response := "<html>" |})
           Fixture.parse "api/contents/nb" Contents.get_settings
           {| XMLHttpRequest.status := 200;
              XMLHttpRequest.statusText := "OK";
              XMLHttpRequest.response := "<html>" |}
           "SyntaxError").
  - reflexivity.
  - reflexivity.
  - discriminate.
  - reflexivity.
Defined.

(** ** Request URLs *)

Section RequestUrls.

Import JsString Uri Utils Contents.

Lemma separator_empty : separator "" = "".
Proof. reflexivity. Qed.

(** Joining a prefix with one non-empty segment. *)
Lemma urlPathJoin_pair (a z : string) :
  z <> "" -> urlPathJoin [a; z] = a ++ separator a ++ z.
Proof.
  intros Hz. unfold urlPathJoin. destruct a as [|c a'].
  - rewrite urlPathJoin_loop_skips_empty.
    rewrite urlPathJoin_loop_cons by exact Hz. reflexivity.
  - rewrite urlPathJoin_loop_cons by discriminate.
    rewrite urlPathJoin_loop_cons by exact Hz. reflexivity.
Qed.

Lemma urlPathJoin_pair_app (a x y : string) :
  x <> "" -> urlPathJoin [a; x ++ y] = urlPathJoin [a; x] ++ y.
Proof.
  intros Hx. rewrite !urlPathJoin_pair.
  - rewrite !string_app_assoc. reflexivity.
  - exact Hx.
  - intros H. apply string_app_empty in H. tauto.
Qed.

Lemma urlPathJoin_pair_extends (a z : string) :
  exists suffix, urlPathJoin [a; z] = a ++ suffix.
Proof.
  destruct z as [|c z'].
  - exists "". rewrite string_app_nil_r. destruct a; reflexivity.
  - rewrite urlPathJoin_pair by discriminate. eauto.
Qed.

Lemma encodeURIComponent_nonempty (s : string) :
  s <> "" -> encodeURIComponent s <> "".
Proof.
  destruct s as [|c s]; [congruence|]. intros _. simpl.
  destruct (unreserved c); [discriminate|].
  destruct (percent_shape c) as (h & l & ->). discriminate.
Qed.

Lemma encodeURIComponents_nonempty (s : string) :
  s <> "" -> encodeURIComponents s <> "".
Proof.
  destruct s as [|c s]; [congruence|]. intros _.
  unfold encodeURIComponents. rewrite split_slash_cons.
  destruct (Ascii.eqb c slash).
  - destruct (split_slash s) as [|y ys] eqn:E;
      [exact (False_ind _ (split_slash_nonempty s E))|].
    cbn [map]. rewrite join_cons_cons. discriminate.
  - destruct (split_slash s) as [|piece rest] eqn:E;
      [exact (False_ind _ (split_slash_nonempty s E))|].
    cbn [map]. intros H.
    destruct (map encodeURIComponent rest) as [|y ys].
    + change (encodeURIComponent (String c piece) = "") in H.
      revert H. apply encodeURIComponent_nonempty. discriminate.
    + rewrite join_cons_cons in H. apply string_app_empty in H.
      destruct H as [H _]. revert H.
      apply encodeURIComponent_nonempty. discriminate.
Qed.

Lemma _getUrl_extends (this : Contents.t) (args : list string) :
  exists suffix, _getUrl this args = _apiUrl this ++ suffix.
Proof. apply urlPathJoin_pair_extends. Qed.

(** X21: Every request URL starts with the API root of the client. *)
Theorem call_url_under_api_root (this : Contents.t) (k : call) :
  exists suffix, call_url this k = _apiUrl this ++ suffix.
Proof.
  destruct k; cbn [call_url]; try apply _getUrl_extends.
  - unfold get_url. destruct (_getUrl_extends this [path]) as [sfx ->].
    eexists. rewrite string_app_assoc. reflexivity.
  - unfold get_url. destruct (_getUrl_extends this [path]) as [sfx ->].
    eexists. rewrite string_app_assoc. reflexivity.
Qed.

Lemma count_query_mark_getUrl (this : Contents.t) (args : list string) :
  count_char "?" (_getUrl this args) = count_char "?" (_apiUrl this).
Proof.
  unfold _getUrl, urlPathJoin.
  rewrite count_char_urlPathJoin_loop by discriminate.
  unfold list_sum. cbn [map fold_right count_char].
  unfold urlJoinEncode.
  rewrite (count_char_outside path_char "?" _ eq_refl
             (encodeURIComponents_chars _)).
  lia.
Qed.

(** X22: With a base URL free of question marks, a path cannot smuggle in a
    query string: the URL of [get] and [listContents] has exactly one
    question mark, the URL of every other call none. *)
Theorem call_url_query_marks (baseUrl : string) (k : call) :
  count_char "?" baseUrl = 0 ->
  count_char "?" (call_url (constructor baseUrl) k)
  = match k with
    | Get _ _ | ListContents _ => 1
    | _ => 0
    end.
Proof.
  intros Hbase.
  assert (Hapi : count_char "?" (_apiUrl (constructor baseUrl)) = 0).
  { cbn [constructor _apiUrl]. unfold urlPathJoin.
    rewrite count_char_urlPathJoin_loop by discriminate.
    unfold list_sum. cbn [map fold_right]. rewrite Hbase. reflexivity. }
  assert (Hq : forall params, count_char "?" (jsonToQueryString params) = 1).
  { intros params. unfold jsonToQueryString.
    rewrite count_char_app, count_char_entries by reflexivity.
    simpl. lia. }
  destruct k; cbn [call_url]; unfold get_url;
    rewrite ?count_char_app, ?Hq, count_query_mark_getUrl, Hapi;
    reflexivity.
Qed.

Lemma call_url_query_marks_example :
  count_char "?"
    (call_url (constructor "http://host/")
              (Delete "what?.txt"))
  = 0.
Proof.
  apply (call_url_query_marks "http://host/" (Delete "what?.txt")).
  reflexivity.
Defined.

(** X23: For a non-empty path that does not end in a slash, the checkpoints of
    a file live directly under the URL of the file, and a checkpoint under
    the checkpoints URL at its encoded id. *)
Theorem checkpoint_urls_nest (this : Contents.t) (path : string) :
  path <> "" -> ends_with_slash path = false ->
  _getUrl this [path; "checkpoints"] = _getUrl this [path] ++ "/checkpoints"
  /\ (forall id,
        id <> "" ->
        _getUrl this [path; "checkpoints"; id]
        = _getUrl this [path; "checkpoints"] ++ "/" ++ encodeURIComponents id).
Proof.
  intros Hne Hend.
  assert (H1 : urlPathJoin [path] = path).
  { destruct path; [congruence|reflexivity]. }
  assert (H2 : urlPathJoin [path; "checkpoints"] = path ++ "/" ++ "checkpoints").
  { rewrite urlPathJoin_pair by discriminate. unfold separator.
    rewrite Hend. destruct path; [congruence|reflexivity]. }
  split.
  - unfold _getUrl, urlJoinEncode. rewrite H1, H2.
    rewrite encodeURIComponents_app.
    apply urlPathJoin_pair_app. apply encodeURIComponents_nonempty. exact Hne.
  - intros id Hid. unfold _getUrl, urlJoinEncode.
    change [path; "checkpoints"; id] with ([path; "checkpoints"] ++ [id])%list.
    rewrite urlPathJoin_stages, H2.
    rewrite (urlPathJoin_pair (path ++ "/" ++ "checkpoints") id Hid).
    assert (Hsep : separator (path ++ "/" ++ "checkpoints") = "/").
    { unfold separator.
      rewrite ends_with_slash_app by discriminate.
      rewrite string_length_app. destruct path; [congruence|reflexivity]. }
    rewrite Hsep. rewrite encodeURIComponents_app.
    apply urlPathJoin_pair_app. apply encodeURIComponents_nonempty.
    intros H. apply string_app_empty in H. tauto.
Qed.

Lemma checkpoint_urls_nest_example :
  _getUrl Fixture.client ["my nb.ipynb"; "checkpoints"]
  = _getUrl Fixture.client ["my nb.ipynb"] ++ "/checkpoints"
  /\ (forall id,
        id <> "" ->
        _getUrl Fixture.client ["my nb.ipynb"; "checkpoints"; id]
        = _getUrl Fixture.client ["my nb.ipynb"; "checkpoints"]
          ++ "/" ++ encodeURIComponents id).
Proof.
  apply (checkpoint_urls_nest Fixture.client "my nb.ipynb").
  - discriminate.
  - reflexivity.
Defined.

(** X24: A trailing slash on the base URL makes no difference to the client. *)
Theorem constructor_ignores_trailing_slash (baseUrl : string) :
  baseUrl <> "" -> ends_with_slash baseUrl = false ->
  constructor (baseUrl ++ "/") = constructor baseUrl.
Proof.
  intros Hne Hend. unfold constructor. f_equal.
  rewrite !urlPathJoin_pair by discriminate.
  unfold separator at 1.
  rewrite ends_with_slash_app by discriminate.
  replace (ends_with_slash "/") with true by reflexivity.
  rewrite andb_false_r. unfold separator. rewrite Hend.
  destruct baseUrl as [|c b]; [congruence|].
  cbn [String.length Nat.ltb Nat.leb negb andb].
  rewrite !string_app_assoc. reflexivity.
Qed.

Lemma constructor_ignores_trailing_slash_example :
  constructor ("http://host:8888" ++ "/") = constructor "http://host:8888".
Proof.
  apply (constructor_ignores_trailing_slash "http://host:8888").
  - discriminate.
  - reflexivity.
Defined.

End RequestUrls.

(** ** The Contents client, continued *)

Lemma forEach_first_failure {A} (f : A -> completion unit)
    (good : list A) (bad : A) (rest : list A) (m : string) :
  Forall (fun x => f x = Return tt) good ->
  f bad = Throw m ->
  forEach f (good ++ bad :: rest)%list = Throw m.
Proof.
  intros Hgood Hbad. induction Hgood as [|x good Hx _ IH]; simpl.
  - rewrite Hbad. reflexivity.
  - rewrite Hx. simpl. exact IH.
Qed.




Section ContentsMore.

Import JsString Contents.

Variable network : Ajax.request -> Ajax.xhr_event.
Variable JSON_parse : string -> completion any.
Variable JSON_stringify : any -> string.
Variable validateContentsModel : any -> completion unit.
Variable validateCheckpointModel : any -> completion unit.

Local Abbreviation invoke :=
  (Contents.invoke network JSON_parse JSON_stringify
                   validateContentsModel validateCheckpointModel).
Local Abbreviation transport :=
  (Contents.transport network JSON_parse JSON_stringify).
Local Abbreviation request_of := (Contents.request_of JSON_stringify).
Local Abbreviation call_settings := (Contents.call_settings JSON_stringify).






(** X17: The caller is handed the transport's own failure outcome exactly when
    the transport failed and the call is not [delete]; [delete] always
    rejects with an [Error]. *)
Theorem raw_transport_failure_iff (this : Contents.t) (k : call)
    (e : IAjaxError.t) :
  invoke this k = Rejected (AjaxError e)
  <-> transport this k = Rejected e /\ (forall path, k <> Delete path).
Proof.
  rewrite invoke_on_transport.
  destruct (transport this k) as [|success|e'] eqn:Htr.
  - destruct k; cbn [then_ then2]; split;
      try discriminate; intros [H _]; discriminate.
  - assert (Hs : forall c : completion any, settle c <> Rejected (AjaxError e)).
    { intros [v|m]; discriminate. }
    destruct k; cbn [then_ then2]; split;
      try (intros H; exfalso; exact (Hs _ H));
      intros [H _]; discriminate.
  - destruct k; cbn [then_ then2]; split;
      try (intros H; inversion H; subst; split;
           [reflexivity|intros p; discriminate]);
      try (intros [H _]; inversion H; subst; reflexivity).
    + unfold delete_catch.
      destruct (XMLHttpRequest.status (IAjaxError.xhr e') =? 400)%N;
        discriminate.
    + intros [_ H]. exfalso. exact (H path eq_refl).
Qed.

(** X18: A request that carries a body declares it as JSON; GET and DELETE
    requests carry neither a body nor a content type. *)
Theorem request_body_is_declared_json (this : Contents.t) (k : call) :
  (Ajax.req_body (request_of this k) <> None ->
   Ajax.req_headers (request_of this k)
   = [("Content-Type", "application/json")])
  /\ (In (Ajax.req_method (request_of this k)) ["GET"; "DELETE"] ->
      Ajax.req_body (request_of this k) = None
      /\ Ajax.req_headers (request_of this k) = []).
Proof.
  unfold Contents.request_of, Ajax.send.
  destruct k; try destruct options;
    cbn [Contents.call_settings get_settings newUntitled_settings
         delete_settings rename_settings save_settings copy_settings
         createCheckpoint_settings listCheckpoints_settings
         restoreCheckpoint_settings deleteCheckpoint_settings
         IAjaxSettings.method IAjaxSettings.contentType IAjaxSettings.data
         Ajax.req_body Ajax.req_headers Ajax.req_method is_empty];
    split; try congruence; try (intros _; split; reflexivity);
    try (intros _; reflexivity);
    try (intros [H|[H|[]]]; discriminate).
Qed.

(** X19: An empty checkpoint id is dropped from the URL: [restoreCheckpoint]
    with id [""] sends the very request of [createCheckpoint], and
    [deleteCheckpoint] with id [""] addresses the checkpoint collection. *)
Theorem empty_checkpoint_id_is_dropped (this : Contents.t) (path : string) :
  request_of this (RestoreCheckpoint path "")
  = request_of this (CreateCheckpoint path)
  /\ call_url this (DeleteCheckpoint path "")
     = call_url this (ListCheckpoints path).
Proof.
  assert (H : _getUrl this [path; "checkpoints"; ""]
              = _getUrl this [path; "checkpoints"]).
  { unfold _getUrl, Utils.urlJoinEncode, Utils.urlPathJoin.
    rewrite (urlPathJoin_loop_filter [path; "checkpoints"; ""] 0 0).
    rewrite (urlPathJoin_loop_filter [path; "checkpoints"] 0 0).
    reflexivity. }
  unfold Contents.request_of. cbn [call_url Contents.call_settings].
  rewrite H. split; reflexivity.
Qed.

(** X20: [listCheckpoints] reports the error of the first element the validator
    refuses; elements after it are not looked at. *)
Theorem listCheckpoints_first_invalid_element (this : Contents.t)
    (path : string) (success : IAjaxSuccess.t)
    (good : list any) (bad : any) (rest : list any) (m : string) :
  transport this (ListCheckpoints path) = Fulfilled success ->
  status_of success = 200%N ->
  IAjaxSuccess.data success = Arr (good ++ bad :: rest) ->
  Forall (fun x => validateCheckpointModel x = Return tt) good ->
  validateCheckpointModel bad = Throw m ->
  invoke this (ListCheckpoints path) = Rejected (Error m).
Proof.
  intros Htr Hst Hdata Hgood Hbad.
  rewrite invoke_on_transport, Htr. cbn [then_].
  unfold listCheckpoints_then. rewrite Hst, Hdata. cbn [N.eqb Pos.eqb negb].
  rewrite (forEach_first_failure _ good bad rest m Hgood Hbad).
  reflexivity.
Qed.

End ContentsMore.

Section ScenariosMore.

Import Contents.


Lemma listCheckpoints_second_element_invalid :
  Fixture.invoke
    (Fixture.replies 200 "OK" (Arr [Fixture.checkpoint; Fixture.pathless]))
    (ListCheckpoints "nb.ipynb")
  = Rejected (Error "Invalid Checkpoint Model").
Proof.
  apply (listCheckpoints_first_invalid_element
           (Fixture.replies 200 "OK"
              (Arr [Fixture.checkpoint; Fixture.pathless]))
           Fixture.parse Fixture.stringify
           Fixture.validateContentsModel Fixture.validateCheckpointModel
           Fixture.client "nb.ipynb"
           (Fixture.reply 200 "OK"
              (Arr [Fixture.checkpoint; Fixture.pathless]))
           [Fixture.checkpoint] Fixture.pathless []
           "Invalid Checkpoint Model").
  - vm_compute. reflexivity.
  - reflexivity.
  - reflexivity.
  - repeat constructor.
  - reflexivity.
Defined.

End ScenariosMore.

(** ** The deferred value, continued *)

Section PromiseDelegateMore.

Import PromiseDelegate.

Variables T R Observer : Type.

Lemma run_uninvoked (acts : list (action T R Observer)) :
  existsb is_invocation acts = false ->
  forall rs,
    run (PromiseDelegate.Build_t T R Observer
           (JsPromise.Build_t T R Observer None false None rs [])) acts
    = PromiseDelegate.Build_t T R Observer
        (JsPromise.Build_t T R Observer None false None
           (rs ++ observers acts) []).
Proof.
  induction acts as [|a rest IH]; intros Hinv rs.
  - simpl. rewrite app_nil_r. reflexivity.
  - destruct a as [x|r|obs| ]; cbn [existsb is_invocation orb] in Hinv;
      try discriminate; rewrite run_cons.
    + unfold step, JsPromise.then_. cbn. rewrite (IH Hinv).
      rewrite <- app_assoc. reflexivity.
    + unfold step, JsPromise.thenable_calls_back. cbn. apply (IH Hinv).
Qed.

(** X25: Until [resolve] or [reject] is invoked, the promise of a delegate stays
    pending: its observers are held in attachment order and none of them
    is notified. *)
Theorem pending_until_invoked (acts : list (action T R Observer)) :
  existsb is_invocation acts = false ->
  let p := promise (run constructor acts) in
  JsPromise.state p = None
  /\ JsPromise.reactions p = observers acts
  /\ JsPromise.jobs p = [].
Proof.
  intros Hinv. unfold constructor, JsPromise.create.
  rewrite (run_uninvoked acts Hinv []). cbn. auto.
Qed.

End PromiseDelegateMore.

Lemma pending_until_invoked_example :
  JsPromise.reactions
    (PromiseDelegate.promise
       (PromiseDelegate.run (@PromiseDelegate.constructor nat string nat)
          [PromiseDelegate.Observe 1; PromiseDelegate.ThenableCallsBack;
           PromiseDelegate.Observe 2]))
  = [1; 2].
Proof.
  apply (pending_until_invoked nat string nat
           [PromiseDelegate.Observe 1; PromiseDelegate.ThenableCallsBack;
            PromiseDelegate.Observe 2]).
  reflexivity.
Defined.
